(** * MyApp: a Flask console over an S3 provider

    A shallow embedding of [MyApp.py].  Every route handler of the program is
    a computation over a [world]: the provider's buckets and objects, the
    outcome the provider has in store for each upcoming remote call, the trace
    of remote calls issued so far and the notices flashed so far.  Python
    exceptions are explicit results; [try ... except (A, B)] is a combinator
    that looks at the class of the exception. *)

From stdpp Require Import gmap strings list fin_maps.
From Stdlib Require Import Ascii.

(** ** Exceptions *)

(** The classes the program can meet.  [NoCredentialsError] and [ClientError]
    are the two classes [MyApp.py] imports from [botocore.exceptions] and names
    in its [except] clauses.  [BadRequestKeyError] is what [request.form[k]]
    and [request.files[k]] raise on a missing field.  [OtherError cls msg]
    stands for an exception of any other class [cls] (a connection failure, a
    parameter validation failure, a missing profile, ...): an instance of
    neither of the two classes above. *)
Inductive exn : Type :=
| NoCredentialsError (msg : string)
| ClientError (msg : string)
| BadRequestKeyError (field : string)
| OtherError (cls : string) (msg : string).

(** [str(e)] *)
Definition str (e : exn) : string :=
  match e with
  | NoCredentialsError msg => msg
  | ClientError msg => msg
  | BadRequestKeyError field => field
  | OtherError _ msg => msg
  end.

(** [isinstance(e, (NoCredentialsError, ClientError))] *)
Definition is_aws_error (e : exn) : bool :=
  match e with
  | NoCredentialsError _ | ClientError _ => true
  | _ => false
  end.

(** [isinstance(e, NoCredentialsError)] *)
Definition is_no_credentials (e : exn) : bool :=
  match e with
  | NoCredentialsError _ => true
  | _ => false
  end.

(** ** The world outside the handlers *)

Definition bytes : Type := list ascii.

(** A remote call, as it appears in the trace. *)
Inductive s3_call : Type :=
| ListBuckets
| ListObjectsV2 (bucket : string)
| CreateBucket (bucket : string)
| DeleteBucket (bucket : string)
| UploadFileobj (bucket key : string) (body : bytes)
| DeleteObject (bucket key : string)
| DownloadFileobj (bucket key : string)
| Copy (bucket key dest_bucket dest_key : string)
| PutObject (bucket key : string) (body : bytes).

Record world : Type := World {
  (** what [boto3.client("s3")] does: [None] builds a client, [Some e]
      raises [e] *)
  construction : option exn;
  (** what the provider does with each upcoming remote call, in order:
      [Some e] makes the call raise [e] and leaves the store alone, [None]
      (also once the list is used up) lets the call proceed *)
  schedule : list (option exn);
  buckets : list string;
  objects : gmap (string * string) bytes;
  (** the remote calls issued, oldest first *)
  calls : list s3_call;
  (** the pending notices, oldest first *)
  flashes : list string;
}.

Definition set_schedule (f : list (option exn)) (w : world) : world :=
  World (construction w) f (buckets w) (objects w) (calls w) (flashes w).
Definition set_buckets (bs : list string) (w : world) : world :=
  World (construction w) (schedule w) bs (objects w) (calls w) (flashes w).
Definition set_objects (os : gmap (string * string) bytes) (w : world) : world :=
  World (construction w) (schedule w) (buckets w) os (calls w) (flashes w).
Definition set_calls (cs : list s3_call) (w : world) : world :=
  World (construction w) (schedule w) (buckets w) (objects w) cs (flashes w).
Definition set_flashes (fs : list string) (w : world) : world :=
  World (construction w) (schedule w) (buckets w) (objects w) (calls w) fs.

(** ** Computations that may raise *)

Inductive outcome (A : Type) : Type :=
| Ret (a : A)
| Raise (e : exn).
Arguments Ret {A} a.
Arguments Raise {A} e.

Definition M (A : Type) : Type := world -> outcome A * world.

Definition ret {A} (a : A) : M A := fun w => (Ret a, w).
Definition raise {A} (e : exn) : M A := fun w => (Raise e, w).
Definition bind {A B} (m : M A) (k : A -> M B) : M B :=
  fun w =>
    match m w with
    | (Ret a, w') => k a w'
    | (Raise e, w') => (Raise e, w')
    end.

Notation "x <- m ;; k" := (bind m (fun x => k))
  (at level 100, m at next level, right associativity).
Notation "m ;;; k" := (bind m (fun _ => k))
  (at level 100, right associativity).

(** [try: body  except <classes> as e: handler e]: an exception of [body]
    whose class is among [classes] is handled, any other goes on up. *)
Definition try_except {A} (body : M A) (classes : exn -> bool)
    (handler : exn -> M A) : M A :=
  fun w =>
    match body w with
    | (Ret a, w') => (Ret a, w')
    | (Raise e, w') => if classes e then handler e w' else (Raise e, w')
    end.

(** [flash(msg)] *)
Definition flash (msg : string) : M unit :=
  fun w => (Ret tt, set_flashes (flashes w ++ [msg]) w).

(** ** The provider

    The S3 service behind the boto3 client.  A remote call is first recorded
    in the trace; then the provider either fails it as the schedule says,
    leaving buckets and objects as they were, or carries it out. *)

Definition remote {A} (c : s3_call) (op : M A) : M A :=
  fun w =>
    let w1 := set_calls (calls w ++ [c]) w in
    match schedule w1 with
    | Some e :: rest => (Raise e, set_schedule rest w1)
    | None :: rest => op (set_schedule rest w1)
    | [] => op w1
    end.

Definition no_such_bucket (op : string) : exn :=
  ClientError ("An error occurred (NoSuchBucket) when calling the " +:+ op
               +:+ " operation: The specified bucket does not exist").

(** the provider refuses a call on a bucket it does not have *)
Definition need_bucket (op bucket : string) : M unit :=
  fun w =>
    if bool_decide (bucket ∈ buckets w) then (Ret tt, w)
    else (Raise (no_such_bucket op), w).

Definition read_object (op bucket key : string) : M bytes :=
  fun w =>
    match objects w !! (bucket, key) with
    | Some v => (Ret v, w)
    | None =>
        (Raise (ClientError ("An error occurred (404) when calling the " +:+ op
                             +:+ " operation: Not Found")), w)
    end.

Definition write_object (bucket key : string) (v : bytes) : M unit :=
  fun w => (Ret tt, set_objects (<[(bucket, key) := v]> (objects w)) w).

(** the [Contents] entries of a bucket: key and size *)
Definition bucket_contents (bucket : string)
    (os : gmap (string * string) bytes) : list (string * nat) :=
  omap (fun kv : (string * string) * bytes =>
          if bool_decide (kv.1.1 = bucket) then Some (kv.1.2, length kv.2)
          else None)
       (map_to_list os).

(** the handle [boto3.client("s3")] returns *)
Inductive s3_client : Type := S3Client.

Definition boto3_client : M s3_client :=
  fun w =>
    match construction w with
    | None => (Ret S3Client, w)
    | Some e => (Raise e, w)
    end.

(** [s3.list_buckets()["Buckets"]]: the provider always sends the entry *)
Definition s3_list_buckets (s3 : s3_client) : M (list string) :=
  remote ListBuckets (fun w => (Ret (buckets w), w)).

(** [s3.list_objects_v2(Bucket=bucket)], as its [Contents] entry, which the
    provider leaves out for a bucket without objects *)
Definition s3_list_objects_v2 (s3 : s3_client) (bucket : string)
    : M (option (list (string * nat))) :=
  remote (ListObjectsV2 bucket)
    (need_bucket "ListObjectsV2" bucket ;;;
     fun w =>
       match bucket_contents bucket (objects w) with
       | [] => (Ret None, w)
       | cs => (Ret (Some cs), w)
       end).

Definition s3_create_bucket (s3 : s3_client) (bucket : string) : M unit :=
  remote (CreateBucket bucket)
    (fun w =>
       if bool_decide (bucket ∈ buckets w)
       then (Raise (ClientError
                      ("An error occurred (BucketAlreadyOwnedByYou) when calling the "
                       +:+ "CreateBucket operation: Your previous request to create "
                       +:+ "the named bucket succeeded and you already own it.")), w)
       else (Ret tt, set_buckets (buckets w ++ [bucket]) w)).

Definition s3_delete_bucket (s3 : s3_client) (bucket : string) : M unit :=
  remote (DeleteBucket bucket)
    (need_bucket "DeleteBucket" bucket ;;;
     fun w =>
       match bucket_contents bucket (objects w) with
       | [] => (Ret tt, set_buckets (filter (fun b => b ≠ bucket) (buckets w)) w)
       | _ => (Raise (ClientError
                        ("An error occurred (BucketNotEmpty) when calling the "
                         +:+ "DeleteBucket operation: The bucket you tried to "
                         +:+ "delete is not empty")), w)
       end).

Definition s3_upload_fileobj (s3 : s3_client) (body : bytes)
    (bucket key : string) : M unit :=
  remote (UploadFileobj bucket key body)
    (need_bucket "PutObject" bucket ;;; write_object bucket key body).

(** deleting a key that is not there succeeds *)
Definition s3_delete_object (s3 : s3_client) (bucket key : string) : M unit :=
  remote (DeleteObject bucket key)
    (need_bucket "DeleteObject" bucket ;;;
     fun w => (Ret tt, set_objects (delete (bucket, key) (objects w)) w)).

(** [s3.download_fileobj(bucket, key, file_obj)]: the bytes written to
    [file_obj] *)
Definition s3_download_fileobj (s3 : s3_client) (bucket key : string) : M bytes :=
  remote (DownloadFileobj bucket key)
    (need_bucket "HeadObject" bucket ;;; read_object "HeadObject" bucket key).

(** [s3.copy({"Bucket": bucket, "Key": key}, dest_bucket, dest_key)] *)
Definition s3_copy (s3 : s3_client) (bucket key dest_bucket dest_key : string)
    : M unit :=
  remote (Copy bucket key dest_bucket dest_key)
    (need_bucket "HeadObject" bucket ;;;
     v <- read_object "HeadObject" bucket key ;;
     need_bucket "CopyObject" dest_bucket ;;;
     write_object dest_bucket dest_key v).

(** [s3.put_object(Bucket=bucket, Key=key)]: no [Body], so no content *)
Definition s3_put_object (s3 : s3_client) (bucket key : string) : M unit :=
  remote (PutObject bucket key [])
    (need_bucket "PutObject" bucket ;;; write_object bucket key []).

(** ** Requests and responses *)

Record FileStorage : Type := { filename : string; stream : bytes }.

Record request : Type := {
  form : gmap string string;
  files : gmap string FileStorage;
}.

(** [request.form[field]] *)
Definition form_item (req : request) (field : string) : M string :=
  match form req !! field with
  | Some v => ret v
  | None => raise (BadRequestKeyError field)
  end.

(** [request.form.get(field, dflt)] *)
Definition form_get (req : request) (field dflt : string) : string :=
  default dflt (form req !! field).

(** [request.files[field]] *)
Definition files_item (req : request) (field : string) : M FileStorage :=
  match files req !! field with
  | Some f => ret f
  | None => raise (BadRequestKeyError field)
  end.

(** [bool(file)]: a [FileStorage] is true when it has a file name *)
Definition file_bool (f : FileStorage) : bool :=
  negb (String.eqb (filename f) "").

(** the targets of [url_for] *)
Inductive endpoint : Type :=
| EpHome
| EpListObjects (bucket : string).

Inductive response : Type :=
| RenderHome (bs : option (list string))
| RenderObjects (bucket : string) (contents : list (string * nat))
    (bs : list string)
| Redirect (target : endpoint)
| SendFile (data : bytes) (as_attachment : bool) (download_name : string).

(** ** String helpers of the Python library *)

(** [s.split(sep)] for a one-character [sep]: never an empty list *)
Fixpoint split (sep : ascii) (s : string) : list string :=
  match s with
  | EmptyString => [""]
  | String c s' =>
      if Ascii.eqb c sep then "" :: split sep s'
      else match split sep s' with
           | seg :: segs => String c seg :: segs
           | [] => [String c ""]
           end
  end.

(** [l[-1]] on the result of a [split] *)
Definition last_item (l : list string) : string := default "" (last l).

(** [s.endswith(c)] for a one-character [c] *)
Fixpoint endswith (s : string) (c : ascii) : bool :=
  match s with
  | EmptyString => false
  | String a EmptyString => Ascii.eqb a c
  | String _ s' => endswith s' c
  end.

(** [c in s] *)
Fixpoint contains (c : ascii) (s : string) : bool :=
  match s with
  | EmptyString => false
  | String a s' => Ascii.eqb a c || contains c s'
  end.

(** [s.replace(old, new)] for one-character [old] and [new] *)
Fixpoint replace (old new : ascii) (s : string) : string :=
  match s with
  | EmptyString => ""
  | String c s' =>
      String (if Ascii.eqb c old then new else c) (replace old new s')
  end.

(** [sep.join(l)] *)
Fixpoint join (sep : ascii) (l : list string) : string :=
  match l with
  | [] => ""
  | [x] => x
  | x :: l' => x +:+ String sep (join sep l')
  end.

(** ** [urllib.parse]

    [quote_plus] works on the UTF-8 bytes of its argument; a key is
    modelled by these bytes, one [ascii] each. *)

(** [_ALWAYS_SAFE]: letters, digits and [_.-~] *)
Definition always_safe (c : ascii) : bool :=
  let n := N_of_ascii c in
  ((65 <=? n) && (n <=? 90) || (97 <=? n) && (n <=? 122)
   || (48 <=? n) && (n <=? 57))%N
  || Ascii.eqb c "_" || Ascii.eqb c "." || Ascii.eqb c "-" || Ascii.eqb c "~".

Definition hex_digit (n : N) : ascii :=
  match String.get (N.to_nat n) "0123456789ABCDEF" with
  | Some d => d
  | None => "0"
  end.

(** ['%{:02X}'.format(c)] *)
Definition percent (c : ascii) : string :=
  let n := N_of_ascii c in
  String "%" (String (hex_digit (n / 16)) (String (hex_digit (n mod 16)) "")).

(** [quote(s, safe)]: a byte that is always safe or in [safe] stays, any
    other becomes its percent escape *)
Fixpoint quote (s : string) (safe : ascii -> bool) : string :=
  match s with
  | EmptyString => ""
  | String c s' =>
      (if always_safe c || safe c then String c "" else percent c)
      +:+ quote s' safe
  end.

(** [quote_plus(s)], with its default [safe=''] *)
Definition quote_plus (s : string) : string :=
  if negb (contains " " s) then quote s (fun _ => false)
  else replace " " "+" (quote s (fun c => Ascii.eqb c " ")).

Definition hex_value (c : ascii) : option N :=
  let n := N_of_ascii c in
  if ((48 <=? n) && (n <=? 57))%N then Some (n - 48)%N
  else if ((65 <=? n) && (n <=? 70))%N then Some (n - 55)%N
  else if ((97 <=? n) && (n <=? 102))%N then Some (n - 87)%N
  else None.

(** [urllib.parse.unquote], on bytes: what a server does to the path of a
    request before it matches the routes.  A percent sign with two hex
    digits after it is the byte they spell; everything else, a plus sign
    too, stands for itself. *)
Fixpoint unquote (s : string) : string :=
  match s with
  | EmptyString => ""
  | String c s' =>
      if Ascii.eqb c "%" then
        match s' with
        | String h (String l rest) =>
            match hex_value h, hex_value l with
            | Some a, Some b =>
                String (ascii_of_N (16 * a + b)) (unquote rest)
            | _, _ => String c (unquote s')
            end
        | _ => String c (unquote s')
        end
      else String c (unquote s')
  end.

(** [urllib.parse.unquote_plus]: what a server does to a form field or a
    query string *)
Definition unquote_plus (s : string) : string := unquote (replace "+" " " s).

(** ** Helpers *)

Definition get_s3_client : M (option s3_client) :=
  try_except (s3 <- boto3_client ;; ret (Some s3))
    is_no_credentials (fun _ => ret None).

Definition credentials_notice : string :=
  " AWS credentials not found. Please configure them.".

Definition ensure_s3 : M (option s3_client) :=
  s3 <- get_s3_client ;;
  match s3 with
  | None => flash credentials_notice ;;; ret None
  | Some s3 => ret (Some s3)
  end.

(** the template filter [urlencode] *)
Definition urlencode_filter (s : string) : string := quote_plus s.

(** ** Routes *)

Definition home : M response :=
  s3 <- ensure_s3 ;;
  match s3 with
  | None => ret (RenderHome None)
  | Some s3 =>
      try_except
        (bs <- s3_list_buckets s3 ;;
         ret (RenderHome (Some bs)))
        is_aws_error
        (fun e => flash (" AWS error: " +:+ str e) ;;;
                  ret (RenderHome None))
  end.

Definition list_objects (bucket : string) : M response :=
  s3 <- ensure_s3 ;;
  match s3 with
  | None => ret (Redirect EpHome)
  | Some s3 =>
      try_except
        (objs <- s3_list_objects_v2 s3 bucket ;;
         let contents := default [] objs in
         bs <- s3_list_buckets s3 ;;
         ret (RenderObjects bucket contents bs))
        is_aws_error
        (fun e => flash (" Error accessing bucket: " +:+ str e) ;;;
                  ret (Redirect EpHome))
  end.

Definition create_bucket (req : request) : M response :=
  s3 <- ensure_s3 ;;
  match s3 with
  | None => ret (Redirect EpHome)
  | Some s3 =>
      bucket_name <- form_item req "bucket_name" ;;
      try_except
        (s3_create_bucket s3 bucket_name ;;;
         flash (" Bucket '" +:+ bucket_name +:+ "' created successfully"))
        is_aws_error
        (fun e => flash (" Failed to create bucket: " +:+ str e)) ;;;
      ret (Redirect EpHome)
  end.

Definition delete_bucket (bucket : string) : M response :=
  s3 <- ensure_s3 ;;
  match s3 with
  | None => ret (Redirect EpHome)
  | Some s3 =>
      try_except
        (s3_delete_bucket s3 bucket ;;;
         flash (" Bucket '" +:+ bucket +:+ "' deleted successfully"))
        is_aws_error
        (fun e => flash (" Failed to delete bucket: " +:+ str e)) ;;;
      ret (Redirect EpHome)
  end.

Definition upload_file (bucket : string) (req : request) : M response :=
  s3 <- ensure_s3 ;;
  match s3 with
  | None => ret (Redirect EpHome)
  | Some s3 =>
      file <- files_item req "file" ;;
      (if file_bool file then
         try_except
           (s3_upload_fileobj s3 (stream file) bucket (filename file) ;;;
            flash (" File '" +:+ filename file +:+ "' uploaded successfully"))
           is_aws_error
           (fun e => flash (" Upload failed: " +:+ str e))
       else ret tt) ;;;
      ret (Redirect (EpListObjects bucket))
  end.

Definition delete_file (bucket key : string) : M response :=
  s3 <- ensure_s3 ;;
  match s3 with
  | None => ret (Redirect EpHome)
  | Some s3 =>
      try_except
        (s3_delete_object s3 bucket key ;;;
         flash (" File '" +:+ key +:+ "' deleted successfully"))
        is_aws_error
        (fun e => flash (" Delete failed: " +:+ str e)) ;;;
      ret (Redirect (EpListObjects bucket))
  end.

Definition download_file (bucket key : string) : M response :=
  s3 <- ensure_s3 ;;
  match s3 with
  | None => ret (Redirect EpHome)
  | Some s3 =>
      try_except
        (file_obj <- s3_download_fileobj s3 bucket key ;;
         ret (SendFile file_obj true (last_item (split "/" key))))
        is_aws_error
        (fun e => flash (" Download failed: " +:+ str e) ;;;
                  ret (Redirect (EpListObjects bucket)))
  end.

Definition copy_file (bucket key : string) (req : request) : M response :=
  s3 <- ensure_s3 ;;
  match s3 with
  | None => ret (Redirect EpHome)
  | Some s3 =>
      dest_bucket <- form_item req "dest_bucket" ;;
      let dest_key := form_get req "dest_key" key in
      try_except
        (s3_copy s3 bucket key dest_bucket dest_key ;;;
         flash (" File '" +:+ key +:+ "' copied to " +:+ dest_bucket
                +:+ "/" +:+ dest_key))
        is_aws_error
        (fun e => flash (" Copy failed: " +:+ str e)) ;;;
      ret (Redirect (EpListObjects bucket))
  end.

Definition move_file (bucket key : string) (req : request) : M response :=
  s3 <- ensure_s3 ;;
  match s3 with
  | None => ret (Redirect EpHome)
  | Some s3 =>
      dest_bucket <- form_item req "dest_bucket" ;;
      let dest_key := form_get req "dest_key" key in
      try_except
        (s3_copy s3 bucket key dest_bucket dest_key ;;;
         s3_delete_object s3 bucket key ;;;
         flash (" File '" +:+ key +:+ "' moved to " +:+ dest_bucket
                +:+ "/" +:+ dest_key))
        is_aws_error
        (fun e => flash (" Move failed: " +:+ str e)) ;;;
      ret (Redirect (EpListObjects bucket))
  end.

(** the key under which [create_folder] stores the folder *)
Definition folder_key (folder_name : string) : string :=
  if negb (endswith folder_name "/") then folder_name +:+ "/"
  else folder_name.

Definition create_folder (bucket : string) (req : request) : M response :=
  s3 <- ensure_s3 ;;
  match s3 with
  | None => ret (Redirect EpHome)
  | Some s3 =>
      folder_name <- form_item req "folder_name" ;;
      let folder_name := folder_key folder_name in
      try_except
        (s3_put_object s3 bucket folder_name ;;;
         flash (" Folder '" +:+ folder_name +:+ "' created in bucket '"
                +:+ bucket +:+ "'"))
        is_aws_error
        (fun e => flash (" Failed to create folder: " +:+ str e)) ;;;
      ret (Redirect (EpListObjects bucket))
  end.

(** The routes [app.route] registers, with the arguments taken from the
    path, and the handler each one runs. *)
Inductive route : Type :=
| RouteHome
| RouteListObjects (bucket : string)
| RouteCreateBucket
| RouteDeleteBucket (bucket : string)
| RouteUploadFile (bucket : string)
| RouteDeleteFile (bucket key : string)
| RouteDownloadFile (bucket key : string)
| RouteCopyFile (bucket key : string)
| RouteMoveFile (bucket key : string)
| RouteCreateFolder (bucket : string).

Definition handler (r : route) (req : request) : M response :=
  match r with
  | RouteHome => home
  | RouteListObjects bucket => list_objects bucket
  | RouteCreateBucket => create_bucket req
  | RouteDeleteBucket bucket => delete_bucket bucket
  | RouteUploadFile bucket => upload_file bucket req
  | RouteDeleteFile bucket key => delete_file bucket key
  | RouteDownloadFile bucket key => download_file bucket key
  | RouteCopyFile bucket key => copy_file bucket key req
  | RouteMoveFile bucket key => move_file bucket key req
  | RouteCreateFolder bucket => create_folder bucket req
  end.

(** a response that shows the home view: the page itself or a redirect
    to it *)
Definition shows_home (r : response) : bool :=
  match r with
  | RenderHome _ | Redirect EpHome => true
  | _ => false
  end.

(** ** Sample worlds and requests *)

(** a world in which building the client fails for a reason other than
    absent credentials: only half of a key pair is configured *)
Definition partial_credentials : world :=
  World (Some (OtherError "PartialCredentialsError"
                 "Partial credentials found in env, missing: AWS_SECRET_ACCESS_KEY"))
        [] [] ∅ [] [].

(** a world without credentials, with one bucket and one object *)
Definition no_credentials : world :=
  World (Some (NoCredentialsError "Unable to locate credentials"))
        [None] ["b"] {[ ("b", "k") := [] ]} [] [].

(** a provider with two buckets and one object *)
Definition two_buckets : world :=
  World None [] ["b"; "c"] {[ ("b", "a/x.txt") := ["h"; "i"]%char ]} [] [].

(** a provider holding one report *)
Definition with_report : world :=
  World None [] ["b"] {[ ("b", "a/b/report.csv") := ["1"; ","; "2"]%char ]}
        [] [].

(** a failure that is none of the provider's answers: the network is down *)
Definition connection_error : exn :=
  OtherError "EndpointConnectionError"
    "Could not connect to the endpoint URL".

(** an answer of the provider: the caller may not do this *)
Definition access_denied (op : string) : exn :=
  ClientError ("An error occurred (AccessDenied) when calling the " +:+ op
               +:+ " operation: Access Denied").

(** a move or copy request that names the destination bucket only *)
Definition move_to_c : request :=
  {| form := {[ "dest_bucket" := "c" ]}; files := ∅ |}.

(** a copy request with both fields *)
Definition copy_to_c_renamed : request :=
  {| form := {[ "dest_bucket" := "c"; "dest_key" := "y.txt" ]}; files := ∅ |}.

(** a request to create the folder [reports] *)
Definition folder_reports : request :=
  {| form := {[ "folder_name" := "reports" ]}; files := ∅ |}.

(** what a browser sends when no file was chosen: a part without a name *)
Definition upload_nothing : request :=
  {| form := ∅; files := {[ "file" := {| filename := ""; stream := [] |} ]} |}.

(** ** Vocabulary of the statements *)

(** Two worlds with the same provider state and the same notices. *)
Definition same_store (w w' : world) : Prop :=
  buckets w' = buckets w /\ objects w' = objects w /\ flashes w' = flashes w.

(** * Properties *)

(** ** Running a computation step by step *)

Section Steps.
Context {A B : Type}.
Variables (m : M A) (k : A -> M B) (w w' : world).

Lemma bind_ret (a : A) : m w = (Ret a, w') -> bind m k w = k a w'.
Proof. intros H. unfold bind. rewrite H. reflexivity. Qed.

Lemma bind_raise (e : exn) :
  m w = (Raise e, w') -> bind m k w = (Raise e, w').
Proof. intros H. unfold bind. rewrite H. reflexivity. Qed.

Variables (classes : exn -> bool) (handle : exn -> M A).

Lemma try_except_ret (a : A) :
  m w = (Ret a, w') -> try_except m classes handle w = (Ret a, w').
Proof. intros H. unfold try_except. rewrite H. reflexivity. Qed.

Lemma try_except_caught (e : exn) :
  m w = (Raise e, w') -> classes e = true ->
  try_except m classes handle w = handle e w'.
Proof. intros H He. unfold try_except. rewrite H, He. reflexivity. Qed.

Lemma try_except_uncaught (e : exn) :
  m w = (Raise e, w') -> classes e = false ->
  try_except m classes handle w = (Raise e, w').
Proof. intros H He. unfold try_except. rewrite H, He. reflexivity. Qed.
End Steps.

Lemma form_item_some (req : request) (field v : string) (w : world) :
  form req !! field = Some v -> form_item req field w = (Ret v, w).
Proof. intros H. unfold form_item. rewrite H. reflexivity. Qed.

Lemma form_item_none (req : request) (field : string) (w : world) :
  form req !! field = None ->
  form_item req field w = (Raise (BadRequestKeyError field), w).
Proof. intros H. unfold form_item. rewrite H. reflexivity. Qed.

(** ** The credential resolver *)

Lemma get_s3_client_world (w : world) : (get_s3_client w).2 = w.
Proof.
  unfold get_s3_client, try_except, bind, boto3_client, ret.
  destruct (construction w) as [e|]; [|reflexivity].
  simpl. destruct (is_no_credentials e); reflexivity.
Qed.

Lemma ensure_s3_available (w : world) :
  construction w = None -> ensure_s3 w = (Ret (Some S3Client), w).
Proof.
  intros Hc. unfold ensure_s3, get_s3_client, try_except, bind, boto3_client.
  rewrite Hc. reflexivity.
Qed.

Lemma ensure_s3_unavailable (w : world) :
  (ensure_s3 w).1 = Ret None ->
  ensure_s3 w = (Ret None, set_flashes (flashes w ++ [credentials_notice]) w).
Proof.
  unfold ensure_s3, get_s3_client, try_except, bind, boto3_client.
  destruct (construction w) as [e|]; simpl; [|discriminate].
  destruct e; simpl; intros H; try discriminate H; reflexivity.
Qed.

Lemma ensure_s3_unavailable_iff (w : world) :
  (ensure_s3 w).1 = Ret None <->
  exists msg, construction w = Some (NoCredentialsError msg).
Proof.
  unfold ensure_s3, get_s3_client, try_except, bind, boto3_client.
  split.
  - destruct (construction w) as [[m|m|f|c m]|]; simpl; intros H;
      try discriminate H. exists m. reflexivity.
  - intros [m ->]. reflexivity.
Qed.

(** C8, as amended.  [get_s3_client] hands back the client when
    [boto3.client] builds one, returns [None] when it raises
    [NoCredentialsError], and lets an exception of any other class through to
    its caller; in each case it leaves the world as it found it. *)
Theorem get_s3_client_boundary (w : world) :
  get_s3_client w =
    (match construction w with
     | None => Ret (Some S3Client)
     | Some e => if is_no_credentials e then Ret None else Raise e
     end, w).
Proof.
  unfold get_s3_client, try_except, bind, boto3_client, ret.
  destruct (construction w) as [e|]; [|reflexivity].
  destruct (is_no_credentials e); reflexivity.
Qed.

(** C8, as stated, fails: there is an outcome of client construction on
    which [get_s3_client] returns neither a client nor [None]; the exception
    leaves it. *)
Lemma get_s3_client_escapes :
  (get_s3_client partial_credentials).1
    = Raise (OtherError "PartialCredentialsError"
               "Partial credentials found in env, missing: AWS_SECRET_ACCESS_KEY")
  /\ (forall r, (get_s3_client partial_credentials).1 <> Ret r).
Proof.
  split; [reflexivity|]. intros r Hr. vm_compute in Hr. discriminate Hr.
Qed.

(** ** No client, no remote call *)

(** C1.  When [ensure_s3] returns [None], the handler of every route returns
    without a remote call: the world it leaves differs from the one it found
    by the credentials notice alone, and the response shows the home view
    (the page itself for [home], a redirect to it for every other route). *)
Theorem unavailable_no_remote_call (r : route) (req : request) (w : world) :
  (ensure_s3 w).1 = Ret None ->
  exists resp,
    handler r req w
      = (Ret resp, set_flashes (flashes w ++ [credentials_notice]) w)
    /\ shows_home resp = true
    /\ (r = RouteHome -> resp = RenderHome None)
    /\ (r <> RouteHome -> resp = Redirect EpHome)
    /\ calls (handler r req w).2 = calls w
    /\ flashes (handler r req w).2 = flashes w ++ [credentials_notice].
Proof.
  intros Hu. apply ensure_s3_unavailable in Hu.
  exists (match r with RouteHome => RenderHome None | _ => Redirect EpHome end).
  assert (Hh : handler r req w
    = (Ret (match r with RouteHome => RenderHome None | _ => Redirect EpHome end),
       set_flashes (flashes w ++ [credentials_notice]) w)).
  { destruct r; simpl;
      [unfold home | unfold list_objects | unfold create_bucket
      | unfold delete_bucket | unfold upload_file | unfold delete_file
      | unfold download_file | unfold copy_file | unfold move_file
      | unfold create_folder];
      unfold bind at 1; rewrite Hu; reflexivity. }
  rewrite Hh. split; [reflexivity|].
  split; [destruct r; reflexivity|].
  split; [destruct r; intros Hr; try reflexivity; discriminate Hr|].
  split; [destruct r; intros Hr; try reflexivity; contradiction|].
  split; reflexivity.
Qed.

Lemma unavailable_no_remote_call_witness :
  (ensure_s3 no_credentials).1 = Ret None
  /\ exists resp,
       handler (RouteMoveFile "b" "k") {| form := ∅; files := ∅ |} no_credentials
         = (Ret resp,
            set_flashes (flashes no_credentials ++ [credentials_notice])
                        no_credentials)
       /\ shows_home resp = true.
Proof.
  split; [reflexivity|].
  destruct (unavailable_no_remote_call (RouteMoveFile "b" "k")
              {| form := ∅; files := ∅ |} no_credentials eq_refl)
    as (resp & H1 & H2 & _).
  exists resp. split; assumption.
Defined.

(** ** What a remote call leaves behind *)

Ltac provider_cases :=
  repeat first
    [ progress simpl
    | match goal with
      | |- context [match schedule ?w with [] => _ | _ :: _ => _ end] =>
          destruct (schedule w) as [|[?|] ?] eqn:?
      | |- context [bool_decide ?P] => destruct (bool_decide P) eqn:?
      | |- context [objects ?w !! ?k] =>
          lazymatch goal with
          | H : objects w !! k = _ |- _ => fail
          | _ => destruct (objects w !! k) eqn:?
          end
      | |- context [match bucket_contents ?b ?os with [] => _ | _ :: _ => _ end] =>
          destruct (bucket_contents b os) eqn:?
      end ].

Ltac provider_inv :=
  provider_cases; intros;
  repeat match goal with
  | H : (_, _) = (_, _) |- _ => inversion H; clear H; subst
  end; simpl.

Lemma s3_copy_raise s3 bucket key dest_bucket dest_key w e w1 :
  s3_copy s3 bucket key dest_bucket dest_key w = (Raise e, w1) ->
  same_store w w1
  /\ calls w1 = calls w ++ [Copy bucket key dest_bucket dest_key].
Proof.
  unfold s3_copy, remote, bind, need_bucket, read_object, write_object,
    same_store.
  provider_inv; auto.
Qed.

Lemma s3_copy_ret s3 bucket key dest_bucket dest_key w w1 :
  s3_copy s3 bucket key dest_bucket dest_key w = (Ret tt, w1) ->
  (exists v, objects w !! (bucket, key) = Some v
             /\ objects w1 = <[(dest_bucket, dest_key) := v]> (objects w))
  /\ buckets w1 = buckets w /\ flashes w1 = flashes w
  /\ calls w1 = calls w ++ [Copy bucket key dest_bucket dest_key].
Proof.
  unfold s3_copy, remote, bind, need_bucket, read_object, write_object.
  provider_inv; eauto 10.
Qed.

Lemma s3_delete_object_raise s3 bucket key w e w1 :
  s3_delete_object s3 bucket key w = (Raise e, w1) ->
  same_store w w1 /\ calls w1 = calls w ++ [DeleteObject bucket key].
Proof.
  unfold s3_delete_object, remote, bind, need_bucket, same_store.
  provider_inv; auto.
Qed.

Lemma s3_delete_object_ret s3 bucket key w w1 :
  s3_delete_object s3 bucket key w = (Ret tt, w1) ->
  objects w1 = delete (bucket, key) (objects w)
  /\ buckets w1 = buckets w /\ flashes w1 = flashes w
  /\ calls w1 = calls w ++ [DeleteObject bucket key].
Proof.
  unfold s3_delete_object, remote, bind, need_bucket.
  provider_inv; auto.
Qed.

Lemma s3_put_object_raise s3 bucket key w e w1 :
  s3_put_object s3 bucket key w = (Raise e, w1) ->
  same_store w w1 /\ calls w1 = calls w ++ [PutObject bucket key []].
Proof.
  unfold s3_put_object, remote, bind, need_bucket, write_object, same_store.
  provider_inv; auto.
Qed.

Lemma s3_put_object_ret s3 bucket key w w1 :
  s3_put_object s3 bucket key w = (Ret tt, w1) ->
  objects w1 = <[(bucket, key) := []]> (objects w)
  /\ buckets w1 = buckets w /\ flashes w1 = flashes w
  /\ calls w1 = calls w ++ [PutObject bucket key []].
Proof.
  unfold s3_put_object, remote, bind, need_bucket, write_object.
  provider_inv; auto.
Qed.

Lemma s3_upload_fileobj_raise s3 body bucket key w e w1 :
  s3_upload_fileobj s3 body bucket key w = (Raise e, w1) ->
  same_store w w1 /\ calls w1 = calls w ++ [UploadFileobj bucket key body].
Proof.
  unfold s3_upload_fileobj, remote, bind, need_bucket, write_object, same_store.
  provider_inv; auto.
Qed.

Lemma s3_upload_fileobj_ret s3 body bucket key w w1 :
  s3_upload_fileobj s3 body bucket key w = (Ret tt, w1) ->
  objects w1 = <[(bucket, key) := body]> (objects w)
  /\ buckets w1 = buckets w /\ flashes w1 = flashes w
  /\ calls w1 = calls w ++ [UploadFileobj bucket key body].
Proof.
  unfold s3_upload_fileobj, remote, bind, need_bucket, write_object.
  provider_inv; auto.
Qed.

Lemma s3_download_fileobj_ret s3 bucket key w data w1 :
  s3_download_fileobj s3 bucket key w = (Ret data, w1) ->
  objects w !! (bucket, key) = Some data
  /\ same_store w w1 /\ calls w1 = calls w ++ [DownloadFileobj bucket key].
Proof.
  unfold s3_download_fileobj, remote, bind, need_bucket, read_object, same_store.
  provider_inv; auto.
Qed.

Lemma s3_download_fileobj_raise s3 bucket key w e w1 :
  s3_download_fileobj s3 bucket key w = (Raise e, w1) ->
  same_store w w1 /\ calls w1 = calls w ++ [DownloadFileobj bucket key].
Proof.
  unfold s3_download_fileobj, remote, bind, need_bucket, read_object, same_store.
  provider_inv; auto.
Qed.

Lemma s3_list_objects_v2_store s3 bucket w r w1 :
  s3_list_objects_v2 s3 bucket w = (r, w1) ->
  same_store w w1 /\ calls w1 = calls w ++ [ListObjectsV2 bucket].
Proof.
  unfold s3_list_objects_v2, remote, bind, need_bucket, same_store.
  provider_inv; auto.
Qed.

Lemma s3_list_buckets_store s3 w r w1 :
  s3_list_buckets s3 w = (r, w1) ->
  same_store w w1 /\ calls w1 = calls w ++ [ListBuckets].
Proof.
  unfold s3_list_buckets, remote, same_store.
  provider_inv; auto.
Qed.

(** ** Move *)

(** C10, as amended.  When the copy step of a move fails, the source is not
    deleted: the copy is the only remote call and the provider's buckets and
    objects are as before.  A [NoCredentialsError] or [ClientError] is turned
    into the notice [" Move failed: ..."] and a redirect to the listing of the
    source bucket; an exception of any other class leaves the handler, with
    no notice. *)
Theorem move_file_copy_fails (bucket key : string) (req : request)
    (w : world) (dest_bucket : string) (e : exn) (w1 : world) :
  construction w = None ->
  form req !! "dest_bucket" = Some dest_bucket ->
  s3_copy S3Client bucket key dest_bucket (form_get req "dest_key" key) w
    = (Raise e, w1) ->
  let r := move_file bucket key req w in
  calls r.2
    = calls w ++ [Copy bucket key dest_bucket (form_get req "dest_key" key)]
  /\ objects r.2 = objects w
  /\ buckets r.2 = buckets w
  /\ (is_aws_error e = true ->
      r.1 = Ret (Redirect (EpListObjects bucket))
      /\ flashes r.2 = flashes w ++ [" Move failed: " +:+ str e])
  /\ (is_aws_error e = false ->
      r.1 = Raise e /\ flashes r.2 = flashes w).
Proof.
  intros Hc Hd Hcopy r.
  destruct (s3_copy_raise _ _ _ _ _ _ _ _ Hcopy) as [(Hb & Ho & Hf) Hcalls].
  assert (Hr : r = if is_aws_error e
                   then (Ret (Redirect (EpListObjects bucket)),
                         set_flashes (flashes w1 ++ [" Move failed: " +:+ str e]) w1)
                   else (Raise e, w1)).
  { subst r. unfold move_file.
    rewrite (bind_ret _ _ _ _ _ (ensure_s3_available _ Hc)).
    rewrite (bind_ret _ _ _ _ _ (form_item_some _ _ _ _ Hd)).
    pose proof (bind_raise _
      (fun _ => s3_delete_object S3Client bucket key ;;;
                flash (" File '" +:+ key +:+ "' moved to " +:+ dest_bucket
                       +:+ "/" +:+ form_get req "dest_key" key))
      _ _ _ Hcopy) as Hbody.
    destruct (is_aws_error e) eqn:He.
    - erewrite bind_ret; [reflexivity|].
      rewrite (try_except_caught _ _ _ _ _ _ Hbody He). reflexivity.
    - apply bind_raise. exact (try_except_uncaught _ _ _ _ _ _ Hbody He). }
  rewrite Hr. destruct (is_aws_error e); simpl;
    repeat split; auto; try discriminate; congruence.
Qed.

Lemma move_file_copy_fails_witness :
  construction (set_schedule [Some (access_denied "CopyObject")] two_buckets)
    = None
  /\ (move_file "b" "a/x.txt" move_to_c
        (set_schedule [Some (access_denied "CopyObject")] two_buckets)).1
     = Ret (Redirect (EpListObjects "b"))
  /\ calls (move_file "b" "a/x.txt" move_to_c
              (set_schedule [Some (access_denied "CopyObject")] two_buckets)).2
     = [Copy "b" "a/x.txt" "c" "a/x.txt"].
Proof.
  split; [reflexivity|].
  destruct (move_file_copy_fails "b" "a/x.txt" move_to_c
              (set_schedule [Some (access_denied "CopyObject")] two_buckets)
              "c" (access_denied "CopyObject")
              (set_calls [Copy "b" "a/x.txt" "c" "a/x.txt"] two_buckets)
              eq_refl eq_refl eq_refl)
    as (Hcalls & _ & _ & Hyes & _).
  split; [apply Hyes; reflexivity | exact Hcalls].
Defined.

(** C10, as stated, fails: the copy step fails on a lost connection, and the
    handler neither flashes a notice nor redirects. *)
Lemma move_file_copy_fails_unnoticed :
  (move_file "b" "a/x.txt" move_to_c
     (set_schedule [Some connection_error] two_buckets)).1
    = Raise connection_error
  /\ flashes (move_file "b" "a/x.txt" move_to_c
                (set_schedule [Some connection_error] two_buckets)).2 = [].
Proof. split; reflexivity. Qed.

(** C2, as amended.  A move request without a [dest_key] field copies
    [(bucket, key)] to [(dest_bucket, key)] and, once the copy has succeeded,
    deletes [(bucket, key)]: these are its two remote calls, in this order.
    When the delete succeeds the source key is gone and the move is
    announced.  When the delete fails, nothing is rolled back: the object is
    still at the destination.  A [NoCredentialsError] or [ClientError] of the
    delete is turned into the notice [" Move failed: ..."] and a redirect; an
    exception of any other class leaves the handler, with no notice. *)
Theorem move_file_default_key (bucket key : string) (req : request)
    (w : world) (dest_bucket : string) (w1 : world) :
  construction w = None ->
  form req !! "dest_key" = None ->
  form req !! "dest_bucket" = Some dest_bucket ->
  s3_copy S3Client bucket key dest_bucket key w = (Ret tt, w1) ->
  exists v,
    objects w !! (bucket, key) = Some v
    /\ objects w1 = <[(dest_bucket, key) := v]> (objects w)
    /\ forall o w2,
         s3_delete_object S3Client bucket key w1 = (o, w2) ->
         let r := move_file bucket key req w in
         calls r.2
           = calls w ++ [Copy bucket key dest_bucket key;
                         DeleteObject bucket key]
         /\ match o with
            | Ret _ =>
                objects r.2 = delete (bucket, key) (objects w1)
                /\ r.1 = Ret (Redirect (EpListObjects bucket))
                /\ flashes r.2
                   = flashes w ++ [" File '" +:+ key +:+ "' moved to "
                                   +:+ dest_bucket +:+ "/" +:+ key]
            | Raise e =>
                objects r.2 = objects w1
                /\ objects r.2 !! (dest_bucket, key) = Some v
                /\ (is_aws_error e = true ->
                    r.1 = Ret (Redirect (EpListObjects bucket))
                    /\ flashes r.2 = flashes w ++ [" Move failed: " +:+ str e])
                /\ (is_aws_error e = false ->
                    r.1 = Raise e /\ flashes r.2 = flashes w)
            end.
Proof.
  intros Hc Hk Hd Hcopy.
  destruct (s3_copy_ret _ _ _ _ _ _ _ Hcopy)
    as ((v & Hv & Ho1) & Hb1 & Hf1 & Hc1).
  exists v. split; [exact Hv|]. split; [exact Ho1|].
  intros o w2 Hdel r.
  assert (Hkey : form_get req "dest_key" key = key).
  { unfold form_get. rewrite Hk. reflexivity. }
  assert (Hr : r = match o with
                   | Ret _ =>
                       (Ret (Redirect (EpListObjects bucket)),
                        set_flashes
                          (flashes w2 ++ [" File '" +:+ key +:+ "' moved to "
                                          +:+ dest_bucket +:+ "/" +:+ key]) w2)
                   | Raise e =>
                       if is_aws_error e
                       then (Ret (Redirect (EpListObjects bucket)),
                             set_flashes
                               (flashes w2 ++ [" Move failed: " +:+ str e]) w2)
                       else (Raise e, w2)
                   end).
  { subst r. unfold move_file.
    rewrite (bind_ret _ _ _ _ _ (ensure_s3_available _ Hc)).
    rewrite (bind_ret _ _ _ _ _ (form_item_some _ _ _ _ Hd)).
    rewrite Hkey.
    destruct o as [[]|e].
    - erewrite bind_ret; [reflexivity|].
      apply try_except_ret.
      rewrite (bind_ret _ _ _ _ _ Hcopy).
      rewrite (bind_ret _ _ _ _ _ Hdel). reflexivity.
    - assert (Hbody :
        (s3_copy S3Client bucket key dest_bucket key ;;;
         s3_delete_object S3Client bucket key ;;;
         flash (" File '" +:+ key +:+ "' moved to " +:+ dest_bucket
                +:+ "/" +:+ key)) w = (Raise e, w2)).
      { rewrite (bind_ret _ _ _ _ _ Hcopy). apply bind_raise. exact Hdel. }
      destruct (is_aws_error e) eqn:He.
      + erewrite bind_ret; [reflexivity|].
        rewrite (try_except_caught _ _ _ _ _ _ Hbody He). reflexivity.
      + apply bind_raise. exact (try_except_uncaught _ _ _ _ _ _ Hbody He). }
  rewrite Hr. destruct o as [[]|e].
  - destruct (s3_delete_object_ret _ _ _ _ _ Hdel) as (Ho2 & Hb2 & Hf2 & Hc2).
    simpl. rewrite Hc2, Hc1, <- app_assoc, Hf2, Hf1. auto.
  - destruct (s3_delete_object_raise _ _ _ _ _ _ Hdel)
      as [(Hb2 & Ho2 & Hf2) Hc2].
    assert (Hdest : objects w2 !! (dest_bucket, key) = Some v).
    { rewrite Ho2, Ho1. apply lookup_insert_eq. }
    destruct (is_aws_error e); simpl;
      rewrite Hc2, Hc1, <- app_assoc; repeat split; auto;
      try discriminate; congruence.
Qed.

Lemma move_file_default_key_witness :
  construction (set_schedule [None; Some (access_denied "DeleteObject")]
                  two_buckets) = None
  /\ (move_file "b" "a/x.txt" move_to_c
        (set_schedule [None; Some (access_denied "DeleteObject")]
           two_buckets)).1
     = Ret (Redirect (EpListObjects "b"))
  /\ objects (move_file "b" "a/x.txt" move_to_c
                (set_schedule [None; Some (access_denied "DeleteObject")]
                   two_buckets)).2 !! ("c", "a/x.txt")
     = Some ["h"; "i"]%char.
Proof.
  split; [reflexivity|].
  destruct (move_file_default_key "b" "a/x.txt" move_to_c
              (set_schedule [None; Some (access_denied "DeleteObject")]
                 two_buckets)
              "c"
              (World None [Some (access_denied "DeleteObject")] ["b"; "c"]
                 (<[("c", "a/x.txt") := ["h"; "i"]%char]> (objects two_buckets))
                 [Copy "b" "a/x.txt" "c" "a/x.txt"] [])
              eq_refl eq_refl eq_refl eq_refl)
    as (v & Hv & _ & Hdel).
  destruct (Hdel (Raise (access_denied "DeleteObject"))
              (World None [] ["b"; "c"]
                 (<[("c", "a/x.txt") := ["h"; "i"]%char]> (objects two_buckets))
                 [Copy "b" "a/x.txt" "c" "a/x.txt";
                  DeleteObject "b" "a/x.txt"] [])
              eq_refl)
    as (_ & _ & Hdest & Hyes & _).
  split; [apply Hyes; reflexivity|].
  transitivity (Some v); [exact Hdest|].
  rewrite <- Hv. reflexivity.
Defined.

(** C2, as stated, fails: the copy succeeds, the delete fails on a lost
    connection, the object is at the destination, and no notice is flashed:
    the exception leaves the handler. *)
Lemma move_file_delete_fails_unnoticed :
  (move_file "b" "a/x.txt" move_to_c
     (set_schedule [None; Some connection_error] two_buckets)).1
    = Raise connection_error
  /\ flashes (move_file "b" "a/x.txt" move_to_c
                (set_schedule [None; Some connection_error] two_buckets)).2
     = []
  /\ objects (move_file "b" "a/x.txt" move_to_c
                (set_schedule [None; Some connection_error] two_buckets)).2
       !! ("c", "a/x.txt") = Some ["h"; "i"]%char.
Proof. repeat split; vm_compute; reflexivity. Qed.

(** ** Listing objects *)

(** C3, as amended.  When one of the two remote calls of [list_objects]
    fails with a [NoCredentialsError] or a [ClientError], the handler catches
    it, flashes [" Error accessing bucket: "] followed by the text of the
    error, and redirects to the home view.  An exception of any other class
    is not caught: it leaves the handler, and no notice is flashed. *)
Theorem list_objects_failure (bucket : string) (w : world) (e : exn)
    (w' : world) :
  construction w = None ->
  (s3_list_objects_v2 S3Client bucket w = (Raise e, w')
   \/ exists objs w1,
        s3_list_objects_v2 S3Client bucket w = (Ret objs, w1)
        /\ s3_list_buckets S3Client w1 = (Raise e, w')) ->
  let r := list_objects bucket w in
  (is_aws_error e = true ->
   r.1 = Ret (Redirect EpHome)
   /\ flashes r.2 = flashes w ++ [" Error accessing bucket: " +:+ str e])
  /\ (is_aws_error e = false -> r.1 = Raise e /\ flashes r.2 = flashes w).
Proof.
  intros Hc Hfail r.
  assert (Hbody :
    (objs <- s3_list_objects_v2 S3Client bucket ;;
     let contents := default [] objs in
     bs <- s3_list_buckets S3Client ;;
     ret (RenderObjects bucket contents bs)) w = (Raise e, w')
    /\ flashes w' = flashes w).
  { destruct Hfail as [H1 | (objs & w1 & H1 & H2)].
    - split; [apply bind_raise; exact H1|].
      apply s3_list_objects_v2_store in H1. apply H1.
    - split.
      + rewrite (bind_ret _ _ _ _ _ H1). apply bind_raise. exact H2.
      + apply s3_list_objects_v2_store in H1. apply s3_list_buckets_store in H2.
        destruct H1 as [(_ & _ & Hf1) _], H2 as [(_ & _ & Hf2) _]. congruence. }
  destruct Hbody as [Hbody Hf].
  subst r. unfold list_objects.
  rewrite (bind_ret _ _ _ _ _ (ensure_s3_available _ Hc)).
  split; intros He.
  - rewrite (try_except_caught _ _ _ _ _ _ Hbody He). simpl.
    rewrite Hf. auto.
  - rewrite (try_except_uncaught _ _ _ _ _ _ Hbody He). auto.
Qed.

Lemma list_objects_failure_witness :
  construction (set_schedule [None; Some (access_denied "ListBuckets")]
                  two_buckets) = None
  /\ (list_objects "b"
        (set_schedule [None; Some (access_denied "ListBuckets")]
           two_buckets)).1
     = Ret (Redirect EpHome)
  /\ flashes (list_objects "b"
                (set_schedule [None; Some (access_denied "ListBuckets")]
                   two_buckets)).2
     = [" Error accessing bucket: An error occurred (AccessDenied) when calling the ListBuckets operation: Access Denied"].
Proof.
  split; [reflexivity|].
  apply (list_objects_failure "b"
           (set_schedule [None; Some (access_denied "ListBuckets")] two_buckets)
           (access_denied "ListBuckets")
           (World None [] ["b"; "c"] (objects two_buckets)
              [ListObjectsV2 "b"; ListBuckets] [])
           eq_refl).
  - right. exists (Some [("a/x.txt", 2)]).
    exists (World None [Some (access_denied "ListBuckets")] ["b"; "c"]
              (objects two_buckets) [ListObjectsV2 "b"] []).
    split; vm_compute; reflexivity.
  - reflexivity.
Defined.

(** C3, as stated, fails: the listing call fails on a lost connection, and
    the failure leaves the handler: no redirect, no notice. *)
Lemma list_objects_failure_escapes :
  (list_objects "b" (set_schedule [Some connection_error] two_buckets)).1
    = Raise connection_error
  /\ flashes
       (list_objects "b" (set_schedule [Some connection_error] two_buckets)).2
     = [].
Proof. split; reflexivity. Qed.

(** With a client at hand, what leaves [list_objects] is never one of the
    two classes its [except] clause names. *)
Lemma list_objects_raises_other (bucket : string) (w : world) (e : exn)
    (w' : world) :
  construction w = None ->
  list_objects bucket w = (Raise e, w') -> is_aws_error e = false.
Proof.
  intros Hc. unfold list_objects.
  rewrite (bind_ret _ _ _ _ _ (ensure_s3_available _ Hc)).
  unfold try_except.
  destruct ((objs <- s3_list_objects_v2 S3Client bucket ;;
             let contents := default [] objs in
             bs <- s3_list_buckets S3Client ;;
             ret (RenderObjects bucket contents bs)) w) as [[a|e0] w0].
  - discriminate.
  - destruct (is_aws_error e0) eqn:He; [discriminate|].
    intros H. inversion H. subst. exact He.
Qed.

(** ** One guarded remote call

    Six handlers share one shape: a remote call and its success notice
    inside [try], a failure notice in [except], a redirect after both. *)
Lemma guarded_call (op : M unit) (ok : string) (failed : exn -> string)
    (resp : response) (w : world) :
  (try_except (op ;;; flash ok) is_aws_error (fun e => flash (failed e)) ;;;
   ret resp) w
  = match op w with
    | (Ret _, w1) => (Ret resp, set_flashes (flashes w1 ++ [ok]) w1)
    | (Raise e, w1) =>
        if is_aws_error e
        then (Ret resp, set_flashes (flashes w1 ++ [failed e]) w1)
        else (Raise e, w1)
    end.
Proof.
  unfold bind, try_except, flash, ret.
  destruct (op w) as [[[]|e] w1]; [reflexivity|].
  destruct (is_aws_error e); reflexivity.
Qed.

(** ** Folders *)

Lemma endswith_app (p : string) (c : ascii) :
  endswith (p +:+ String c "") c = true.
Proof.
  induction p as [|a p IH].
  - simpl. apply Ascii.eqb_refl.
  - change (String a p +:+ String c "") with (String a (p +:+ String c "")).
    remember (p +:+ String c "") as t eqn:Hp.
    destruct t as [|b t]; [destruct p; discriminate Hp|exact IH].
Qed.

Lemma endswith_inv (s : string) (c : ascii) :
  endswith s c = true -> exists p, s = p +:+ String c "".
Proof.
  induction s as [|a s IH]; simpl; [discriminate|].
  destruct s as [|b s].
  - intros H. apply Ascii.eqb_eq in H. subst. exists "". reflexivity.
  - intros H. destruct (IH H) as [p Hp]. exists (String a p).
    rewrite Hp. reflexivity.
Qed.

Lemma folder_key_endswith (folder_name : string) :
  endswith (folder_key folder_name) "/" = true.
Proof.
  unfold folder_key. destruct (endswith folder_name "/") eqn:H; simpl.
  - exact H.
  - apply endswith_app.
Qed.

(** C4.  [create_folder] stores the folder under [folder_key folder_name]:
    the name itself when it already ends in a slash, the name with one slash
    appended otherwise.  Its one remote call puts an object without content
    under that key, and when the provider accepts the call the bucket holds
    the empty object there. *)
Theorem create_folder_key (bucket : string) (req : request) (w : world)
    (folder_name : string) :
  construction w = None ->
  form req !! "folder_name" = Some folder_name ->
  let key := folder_key folder_name in
  let r := create_folder bucket req w in
  ((exists p, folder_name = p +:+ "/") -> key = folder_name)
  /\ ((~ exists p, folder_name = p +:+ "/") -> key = folder_name +:+ "/")
  /\ calls r.2 = calls w ++ [PutObject bucket key []]
  /\ (forall w1,
        s3_put_object S3Client bucket key w = (Ret tt, w1) ->
        r.1 = Ret (Redirect (EpListObjects bucket))
        /\ objects r.2 = <[(bucket, key) := []]> (objects w)
        /\ objects r.2 !! (bucket, key) = Some []
        /\ flashes r.2
           = flashes w ++ [" Folder '" +:+ key +:+ "' created in bucket '"
                           +:+ bucket +:+ "'"]).
Proof.
  intros Hc Hn key r.
  split; [|split].
  - intros [p ->]. subst key. unfold folder_key.
    rewrite (endswith_app p "/"). reflexivity.
  - intros Hno. subst key. unfold folder_key.
    destruct (endswith folder_name "/") eqn:H; [|reflexivity].
    exfalso. apply Hno. apply endswith_inv. exact H.
  - assert (Hr : r = match s3_put_object S3Client bucket key w with
                     | (Ret _, w1) =>
                         (Ret (Redirect (EpListObjects bucket)),
                          set_flashes
                            (flashes w1 ++ [" Folder '" +:+ key
                                            +:+ "' created in bucket '"
                                            +:+ bucket +:+ "'"]) w1)
                     | (Raise e, w1) =>
                         if is_aws_error e
                         then (Ret (Redirect (EpListObjects bucket)),
                               set_flashes
                                 (flashes w1 ++ [" Failed to create folder: "
                                                 +:+ str e]) w1)
                         else (Raise e, w1)
                     end).
    { subst r. unfold create_folder.
      rewrite (bind_ret _ _ _ _ _ (ensure_s3_available _ Hc)).
      rewrite (bind_ret _ _ _ _ _ (form_item_some _ _ _ _ Hn)).
      apply guarded_call. }
    rewrite Hr.
    destruct (s3_put_object S3Client bucket key w) as [[[]|e] w1] eqn:Hput.
    + destruct (s3_put_object_ret _ _ _ _ _ Hput) as (Ho & _ & Hf & Hcalls).
      simpl. split; [exact Hcalls|]. intros w1' Heq. inversion Heq; subst w1'.
      rewrite Ho, Hf. repeat split; auto. apply lookup_insert_eq.
    + destruct (s3_put_object_raise _ _ _ _ _ _ Hput) as [_ Hcalls].
      split; [destruct (is_aws_error e); exact Hcalls|].
      intros w1' Heq. discriminate Heq.
Qed.

Lemma create_folder_key_witness :
  construction two_buckets = None
  /\ calls (create_folder "b" folder_reports two_buckets).2
     = [PutObject "b" "reports/" []]
  /\ objects (create_folder "b" folder_reports two_buckets).2
       !! ("b", "reports/") = Some [].
Proof.
  split; [reflexivity|].
  destruct (create_folder_key "b" folder_reports two_buckets "reports"
              eq_refl eq_refl) as (_ & _ & Hcalls & Hput).
  split; [exact Hcalls|].
  destruct (Hput (World None [] ["b"; "c"]
                    (<[("b", "reports/") := []]> (objects two_buckets))
                    [PutObject "b" "reports/" []] [])
                 eq_refl) as (_ & _ & Hobj & _).
  exact Hobj.
Defined.

Example folder_key_reports : folder_key "reports" = "reports/".
Proof. reflexivity. Qed.

Example folder_key_reports_slash : folder_key "reports/" = "reports/".
Proof. reflexivity. Qed.

(** ** Copy *)

(** C5.  [copy_file] copies to [(dest_bucket, dest_key)], where [dest_key] is
    the form field of that name when the request has one and the source key
    when it has none.  The copy is its one remote call; once the provider has
    carried it out, the destination holds the content of the source, every
    other key holds what it held, and the source is still there with its
    content. *)
Theorem copy_file_destination (bucket key : string) (req : request)
    (w : world) (dest_bucket : string) (w1 : world) :
  construction w = None ->
  form req !! "dest_bucket" = Some dest_bucket ->
  let dest_key := match form req !! "dest_key" with
                  | Some dk => dk
                  | None => key
                  end in
  s3_copy S3Client bucket key dest_bucket dest_key w = (Ret tt, w1) ->
  let r := copy_file bucket key req w in
  r.1 = Ret (Redirect (EpListObjects bucket))
  /\ calls r.2 = calls w ++ [Copy bucket key dest_bucket dest_key]
  /\ flashes r.2
     = flashes w ++ [" File '" +:+ key +:+ "' copied to " +:+ dest_bucket
                     +:+ "/" +:+ dest_key]
  /\ exists v,
       objects w !! (bucket, key) = Some v
       /\ objects r.2 = <[(dest_bucket, dest_key) := v]> (objects w)
       /\ objects r.2 !! (dest_bucket, dest_key) = Some v
       /\ objects r.2 !! (bucket, key) = Some v
       /\ (forall k, k <> (dest_bucket, dest_key) ->
                     objects r.2 !! k = objects w !! k).
Proof.
  intros Hc Hd dest_key Hcopy r.
  assert (Hr : r = (Ret (Redirect (EpListObjects bucket)),
                    set_flashes
                      (flashes w1 ++ [" File '" +:+ key +:+ "' copied to "
                                      +:+ dest_bucket +:+ "/" +:+ dest_key])
                      w1)).
  { subst r. unfold copy_file.
    rewrite (bind_ret _ _ _ _ _ (ensure_s3_available _ Hc)).
    rewrite (bind_ret _ _ _ _ _ (form_item_some _ _ _ _ Hd)).
    change (form_get req "dest_key" key) with dest_key.
    rewrite guarded_call, Hcopy. reflexivity. }
  destruct (s3_copy_ret _ _ _ _ _ _ _ Hcopy) as ((v & Hv & Ho) & _ & Hf & Hcalls).
  rewrite Hr. simpl. rewrite Hf.
  split; [reflexivity|]. split; [exact Hcalls|]. split; [reflexivity|].
  exists v. rewrite Ho. split; [exact Hv|]. split; [reflexivity|].
  split; [apply lookup_insert_eq|]. split.
  - destruct (decide ((dest_bucket, dest_key) = (bucket, key))) as [->|Hne].
    + apply lookup_insert_eq.
    + rewrite lookup_insert_ne by exact Hne. exact Hv.
  - intros k Hk. apply lookup_insert_ne. congruence.
Qed.

Lemma copy_file_destination_witness :
  construction two_buckets = None
  /\ calls (copy_file "b" "a/x.txt" copy_to_c_renamed two_buckets).2
     = [Copy "b" "a/x.txt" "c" "y.txt"]
  /\ exists v,
       objects (copy_file "b" "a/x.txt" copy_to_c_renamed two_buckets).2
         !! ("c", "y.txt") = Some v
       /\ objects (copy_file "b" "a/x.txt" copy_to_c_renamed two_buckets).2
            !! ("b", "a/x.txt") = Some v.
Proof.
  split; [reflexivity|].
  destruct (copy_file_destination "b" "a/x.txt" copy_to_c_renamed two_buckets
              "c"
              (World None [] ["b"; "c"]
                 (<[("c", "y.txt") := ["h"; "i"]%char]> (objects two_buckets))
                 [Copy "b" "a/x.txt" "c" "y.txt"] [])
              eq_refl eq_refl eq_refl)
    as (_ & Hcalls & _ & v & _ & _ & Hdst & Hsrc & _).
  split; [exact Hcalls|]. exists v. split; assumption.
Defined.

(** without a [dest_key] field the copy goes to the source key *)
Example copy_file_default_key :
  calls (copy_file "b" "a/x.txt" move_to_c two_buckets).2
    = [Copy "b" "a/x.txt" "c" "a/x.txt"].
Proof. reflexivity. Qed.

(** ** Upload *)

Lemma file_bool_false (f : FileStorage) :
  file_bool f = false <-> filename f = "".
Proof.
  unfold file_bool. destruct (String.eqb (filename f) "") eqn:H; simpl.
  - apply String.eqb_eq in H. split; auto.
  - apply String.eqb_neq in H. split; [discriminate | contradiction].
Qed.

(** C9, as amended.  An upload request whose [file] part has no file name
    is answered by the redirect to the object listing and nothing else: no
    remote call, no notice.  A request without a [file] part is refused with
    [BadRequestKeyError], again before any remote call.  A file with a name
    is uploaded, in one remote call, under that name, and is there once the
    provider has accepted the call. *)
Theorem upload_file_cases (bucket : string) (req : request) (w : world) :
  construction w = None ->
  let r := upload_file bucket req w in
  match files req !! "file" with
  | None => r = (Raise (BadRequestKeyError "file"), w)
  | Some file =>
      if file_bool file then
        calls r.2
          = calls w ++ [UploadFileobj bucket (filename file) (stream file)]
        /\ (forall w1,
              s3_upload_fileobj S3Client (stream file) bucket (filename file) w
                = (Ret tt, w1) ->
              r.1 = Ret (Redirect (EpListObjects bucket))
              /\ objects r.2
                 = <[(bucket, filename file) := stream file]> (objects w)
              /\ flashes r.2
                 = flashes w ++ [" File '" +:+ filename file
                                 +:+ "' uploaded successfully"])
      else r = (Ret (Redirect (EpListObjects bucket)), w)
  end.
Proof.
  intros Hc r. subst r. unfold upload_file.
  rewrite (bind_ret _ _ _ _ _ (ensure_s3_available _ Hc)).
  unfold files_item.
  destruct (files req !! "file") as [file|]; [|reflexivity].
  rewrite (bind_ret (ret file) _ w w file eq_refl).
  destruct (file_bool file); [|reflexivity].
  rewrite guarded_call.
  destruct (s3_upload_fileobj S3Client (stream file) bucket (filename file) w)
    as [[[]|e] w1] eqn:Hup.
  - destruct (s3_upload_fileobj_ret _ _ _ _ _ _ Hup) as (Ho & _ & Hf & Hcalls).
    simpl. split; [exact Hcalls|]. intros w1' Heq. inversion Heq; subst w1'.
    rewrite Hf. auto.
  - destruct (s3_upload_fileobj_raise _ _ _ _ _ _ _ Hup) as [_ Hcalls].
    split; [destruct (is_aws_error e); exact Hcalls|].
    intros w1' Heq. discriminate Heq.
Qed.

Lemma upload_file_cases_witness :
  construction two_buckets = None
  /\ upload_file "b" upload_nothing two_buckets
     = (Ret (Redirect (EpListObjects "b")), two_buckets).
Proof.
  split; [reflexivity|].
  exact (upload_file_cases "b" upload_nothing two_buckets eq_refl).
Defined.

(** C9, as stated, fails: an upload request that brings no [file] part at
    all is not redirected to the object listing; it is refused. *)
Lemma upload_file_without_part :
  upload_file "b" {| form := ∅; files := ∅ |} two_buckets
    = (Raise (BadRequestKeyError "file"), two_buckets).
Proof. reflexivity. Qed.

(** ** Download *)

Lemma split_nonempty (sep : ascii) (s : string) : split sep s <> [].
Proof.
  destruct s as [|c s]; simpl; [discriminate|].
  destruct (Ascii.eqb c sep); [discriminate|].
  destruct (split sep s); discriminate.
Qed.

Lemma join_split (sep : ascii) (s : string) : join sep (split sep s) = s.
Proof.
  induction s as [|c s IH]; [reflexivity|]. simpl.
  destruct (Ascii.eqb c sep) eqn:Hc.
  - apply Ascii.eqb_eq in Hc. subst c.
    pose proof (split_nonempty sep s) as Hne.
    simpl. destruct (split sep s) as [|x l]; [contradiction|].
    rewrite IH. reflexivity.
  - destruct (split sep s) as [|x l]; simpl in *.
    + rewrite <- IH. reflexivity.
    + destruct l; rewrite <- IH; reflexivity.
Qed.

Lemma split_no_sep (sep : ascii) (s : string) :
  Forall (fun seg => contains sep seg = false) (split sep s).
Proof.
  induction s as [|c s IH]; simpl.
  - repeat constructor.
  - destruct (Ascii.eqb c sep) eqn:Hc.
    + constructor; [reflexivity | exact IH].
    + destruct (split sep s) as [|x l].
      * repeat constructor. simpl. rewrite Hc. reflexivity.
      * inversion IH; subst. constructor; [|assumption].
        simpl. rewrite Hc. assumption.
Qed.

Lemma append_assoc (s t u : string) : (s +:+ t) +:+ u = s +:+ (t +:+ u).
Proof.
  induction s as [|c s IH]; [reflexivity|].
  change (String c ((s +:+ t) +:+ u) = String c (s +:+ (t +:+ u))).
  rewrite IH. reflexivity.
Qed.

Lemma join_snoc (sep : ascii) (l : list string) (x : string) :
  l <> [] -> join sep (l ++ [x]) = join sep l +:+ String sep x.
Proof.
  induction l as [|y l IH]; [contradiction|]. intros _.
  destruct l as [|z l].
  - reflexivity.
  - change (join sep ((y :: z :: l) ++ [x]))
      with (y +:+ String sep (join sep ((z :: l) ++ [x]))).
    rewrite IH by discriminate.
    change (join sep (y :: z :: l)) with (y +:+ String sep (join sep (z :: l))).
    rewrite append_assoc. reflexivity.
Qed.

(** the last item of a split holds no separator, and the string is that
    item, or some prefix, a separator and that item *)
Lemma last_item_split (sep : ascii) (s : string) :
  contains sep (last_item (split sep s)) = false
  /\ (s = last_item (split sep s)
      \/ exists p, s = p +:+ String sep (last_item (split sep s))).
Proof.
  pose proof (join_split sep s) as Hj.
  pose proof (split_no_sep sep s) as Hf.
  pose proof (split_nonempty sep s) as Hne.
  destruct (split sep s) as [|x l] using rev_ind; [contradiction|].
  clear IHl Hne. unfold last_item. rewrite last_snoc. simpl.
  apply Forall_app in Hf. destruct Hf as [_ Hx]. inversion Hx; subst.
  split; [assumption|].
  destruct l as [|y l].
  - left. reflexivity.
  - right. exists (join sep (y :: l)). apply join_snoc. discriminate.
Qed.

(** C6.  When the provider delivers the object, [download_file] answers
    with a file sent as an attachment: its bytes are the content stored under
    [(bucket, key)], and its download name is the last item of the key split
    at the slashes, which holds no slash and ends the key. *)
Theorem download_file_attachment (bucket key : string) (w : world)
    (data : bytes) (w1 : world) :
  construction w = None ->
  s3_download_fileobj S3Client bucket key w = (Ret data, w1) ->
  let name := last_item (split "/" key) in
  download_file bucket key w = (Ret (SendFile data true name), w1)
  /\ objects w !! (bucket, key) = Some data
  /\ objects w1 = objects w
  /\ flashes w1 = flashes w
  /\ contains "/" name = false
  /\ (key = name \/ exists p, key = p +:+ "/" +:+ name).
Proof.
  intros Hc Hget name.
  destruct (s3_download_fileobj_ret _ _ _ _ _ _ Hget) as (Hv & (_ & Ho & Hf) & _).
  destruct (last_item_split "/" key) as [Hname Hkey].
  split; [|auto].
  unfold download_file.
  rewrite (bind_ret _ _ _ _ _ (ensure_s3_available _ Hc)).
  apply try_except_ret. rewrite (bind_ret _ _ _ _ _ Hget). reflexivity.
Qed.

Lemma download_file_attachment_witness :
  construction with_report = None
  /\ download_file "b" "a/b/report.csv" with_report
     = (Ret (SendFile ["1"; ","; "2"]%char true "report.csv"),
        set_calls [DownloadFileobj "b" "a/b/report.csv"] with_report).
Proof.
  split; [reflexivity|].
  exact (proj1 (download_file_attachment "b" "a/b/report.csv" with_report
                  ["1"; ","; "2"]%char
                  (set_calls [DownloadFileobj "b" "a/b/report.csv"] with_report)
                  eq_refl eq_refl)).
Defined.

(** ** The urlencode filter *)

Ltac each_byte c := destruct c as [[] [] [] [] [] [] [] []].

Lemma unquote_percent (c : ascii) (t : string) :
  unquote (percent c +:+ t) = String c (unquote t).
Proof. each_byte c; reflexivity. Qed.

Lemma replace_space_percent (c : ascii) (t : string) :
  replace " " "+" (percent c +:+ t) = percent c +:+ replace " " "+" t.
Proof. each_byte c; reflexivity. Qed.

Lemma replace_plus_percent (c : ascii) (t : string) :
  replace "+" " " (percent c +:+ t) = percent c +:+ replace "+" " " t.
Proof. each_byte c; reflexivity. Qed.

Lemma always_safe_plain (c : ascii) :
  always_safe c = true ->
  Ascii.eqb c "%" = false /\ Ascii.eqb c " " = false
  /\ Ascii.eqb c "+" = false.
Proof. each_byte c; vm_compute; intros H; try discriminate H; auto. Qed.

Lemma unquote_plain (c : ascii) (t : string) :
  Ascii.eqb c "%" = false -> unquote (String c t) = String c (unquote t).
Proof. intros H. simpl. rewrite H. reflexivity. Qed.

Lemma replace_absent (old new : ascii) (s : string) :
  contains old s = false -> replace old new s = s.
Proof.
  induction s as [|c s IH]; simpl; [reflexivity|].
  intros H. apply orb_false_iff in H. destruct H as [Hc Hs].
  rewrite Hc, IH by exact Hs. reflexivity.
Qed.

(** decoding an encoded key as a path: a byte that was escaped or kept
    comes back, a space comes back as the plus sign it was turned into *)
Lemma unquote_quote_space (s : string) :
  unquote (replace " " "+" (quote s (fun c => Ascii.eqb c " ")))
    = replace " " "+" s.
Proof.
  induction s as [|c s IH]; [reflexivity|].
  cbn [quote replace].
  destruct (always_safe c) eqn:Hs; simpl orb.
  - destruct (always_safe_plain c Hs) as (Hp & Hsp & _).
    change (String c "" +:+ ?t) with (String c t).
    cbn [replace]. rewrite Hsp, unquote_plain by exact Hp.
    rewrite IH. reflexivity.
  - destruct (Ascii.eqb c " ") eqn:Hsp.
    + apply Ascii.eqb_eq in Hsp. subst c.
      change (String " " "" +:+ ?t) with (String " "%char t).
      cbn [replace]. rewrite Ascii.eqb_refl.
      rewrite unquote_plain by reflexivity. rewrite IH. reflexivity.
    + rewrite replace_space_percent, unquote_percent, IH. reflexivity.
Qed.

Lemma unquote_quote (s : string) (safe : ascii -> bool) :
  safe "%"%char = false -> unquote (quote s safe) = s.
Proof.
  intros Hsafe. induction s as [|c s IH]; [reflexivity|].
  cbn [quote].
  destruct (always_safe c || safe c) eqn:Hs.
  - change (String c "" +:+ ?t) with (String c t).
    rewrite unquote_plain, IH; [reflexivity|].
    destruct (Ascii.eqb c "%") eqn:Hp; [|reflexivity].
    apply Ascii.eqb_eq in Hp. subst c. rewrite Hsafe in Hs. discriminate Hs.
  - rewrite unquote_percent, IH. reflexivity.
Qed.

Lemma quote_plus_free (s : string) (safe : ascii -> bool) :
  safe "+"%char = false -> replace "+" " " (quote s safe) = quote s safe.
Proof.
  intros Hsafe. induction s as [|c s IH]; [reflexivity|].
  cbn [quote].
  destruct (always_safe c || safe c) eqn:Hs.
  - change (String c "" +:+ ?t) with (String c t).
    cbn [replace]. rewrite IH.
    destruct (Ascii.eqb c "+") eqn:Hp; [|reflexivity].
    apply Ascii.eqb_eq in Hp. subst c. rewrite Hsafe in Hs. discriminate Hs.
  - rewrite replace_plus_percent, IH. reflexivity.
Qed.

Lemma replace_back (a b : ascii) (s : string) :
  contains b s = false -> replace b a (replace a b s) = s.
Proof.
  induction s as [|c s IH]; simpl; [reflexivity|].
  intros H. apply orb_false_iff in H. destruct H as [Hc Hs].
  rewrite IH by exact Hs.
  destruct (Ascii.eqb c a) eqn:Ha.
  - apply Ascii.eqb_eq in Ha. subst c. rewrite Ascii.eqb_refl. reflexivity.
  - rewrite Hc. reflexivity.
Qed.

Lemma contains_replace_absent (old new : ascii) (s : string) :
  replace old new s = s -> old <> new -> contains old s = false.
Proof.
  intros H Hne. induction s as [|c s IH]; [reflexivity|].
  simpl in H. injection H as Hc Hs.
  simpl. rewrite (IH Hs), orb_false_r.
  destruct (Ascii.eqb c old) eqn:E; [|reflexivity].
  apply Ascii.eqb_eq in E. congruence.
Qed.

(** The filter and the decoding of a path: every key comes back with its
    spaces turned into plus signs. *)
Lemma urlencode_filter_as_path (key : string) :
  unquote (urlencode_filter key) = replace " " "+" key.
Proof.
  unfold urlencode_filter, quote_plus.
  destruct (contains " " key) eqn:Hsp; simpl negb; cbv iota.
  - apply unquote_quote_space.
  - rewrite unquote_quote by reflexivity.
    symmetry. apply replace_absent. exact Hsp.
Qed.

(** a key without a space survives the trip through a path *)
Lemma urlencode_filter_path_round_trip (key : string) :
  contains " " key = false -> unquote (urlencode_filter key) = key.
Proof.
  intros H. rewrite urlencode_filter_as_path. apply replace_absent. exact H.
Qed.

(** every key survives the trip through a form field or a query string *)
Lemma urlencode_filter_form_round_trip (key : string) :
  unquote_plus (urlencode_filter key) = key.
Proof.
  unfold unquote_plus, urlencode_filter, quote_plus.
  destruct (contains " " key) eqn:Hsp; simpl negb; cbv iota.
  - rewrite replace_back.
    + apply unquote_quote. reflexivity.
    + apply (contains_replace_absent "+" " "); [|discriminate].
      apply quote_plus_free. reflexivity.
  - rewrite quote_plus_free by reflexivity. apply unquote_quote. reflexivity.
Qed.

(** C7 at a key with a space in it: the filter turns the space into a plus
    sign, the path of the link decodes to a key with the plus sign in it,
    which is another key. *)
Theorem urlencode_filter_space :
  urlencode_filter "my file.txt" = "my+file.txt"
  /\ unquote (urlencode_filter "my file.txt") = "my+file.txt"
  /\ unquote (urlencode_filter "my file.txt") <> "my file.txt"
  /\ urlencode_filter "a b/c" = "a+b%2Fc"
  /\ unquote (urlencode_filter "a b/c") = "a+b/c".
Proof. repeat split; try reflexivity. discriminate. Qed.


(** * Further properties of the handlers *)

(** ** Every route, every world *)

Ltac unfold_run :=
  unfold handler, home, list_objects, create_bucket, delete_bucket, upload_file,
    delete_file, download_file, copy_file, move_file, create_folder,
    ensure_s3, get_s3_client, boto3_client, form_item, files_item,
    s3_list_buckets, s3_list_objects_v2, s3_create_bucket, s3_delete_bucket,
    s3_upload_fileobj, s3_delete_object, s3_download_fileobj, s3_copy,
    s3_put_object, remote, need_bucket, read_object, write_object,
    try_except, bind, ret, raise, flash.

Ltac tidy_run :=
  cbn beta iota zeta delta
    [fst snd construction schedule buckets objects calls flashes
     set_schedule set_buckets set_objects set_calls set_flashes] in *.

(** case analysis on what a run looks at, innermost test first *)
Ltac split_run :=
  repeat first
    [ progress tidy_run
    | match goal with
      | |- context [match ?x with _ => _ end] =>
          lazymatch x with
          | context [match _ with _ => _ end] => fail
          | _ => destruct x eqn:?
          end
      end ].

(** X1.  A request adds at most one notice to the pending ones, whatever the
    route, the request and the provider do. *)
Theorem at_most_one_notice (r : route) (req : request) (w : world) :
  flashes (handler r req w).2 = flashes w
  \/ exists msg, flashes (handler r req w).2 = flashes w ++ [msg].
Proof.
  destruct r; unfold_run; split_run; eauto.
Qed.

(** X2.  A request only appends to the trace of remote calls: at most two calls
    for [list_objects] and [move_file], at most one for every other route. *)
Theorem remote_call_budget (r : route) (req : request) (w : world) :
  exists l,
    calls (handler r req w).2 = calls w ++ l
    /\ length l <= match r with
                   | RouteListObjects _ | RouteMoveFile _ _ => 2
                   | _ => 1
                   end.
Proof.
  destruct r; unfold_run; split_run; rewrite <- ?app_assoc;
    first [ exists []; split; [symmetry; apply app_nil_r | simpl; lia]
          | eexists; split; [reflexivity | simpl; lia] ].
Qed.

(** X3.  [home], [list_objects] and [download_file] only read: whatever
    happens, the provider has the buckets and objects it had, and the remote
    calls issued are listings and downloads. *)
Theorem read_only_routes (bucket key : string) (w : world) :
  let reads (r : outcome response * world) :=
    buckets r.2 = buckets w /\ objects r.2 = objects w
    /\ exists l,
         calls r.2 = calls w ++ l
         /\ Forall (fun c => match c with
                             | ListBuckets | ListObjectsV2 _
                             | DownloadFileobj _ _ => True
                             | _ => False
                             end) l in
  reads (home w) /\ reads (list_objects bucket w)
  /\ reads (download_file bucket key w).
Proof.
  cbv zeta.
  repeat split; unfold_run; split_run; try reflexivity;
    rewrite <- ?app_assoc;
    first [ exists []; split; [symmetry; apply app_nil_r | constructor]
          | eexists; split; [reflexivity | repeat constructor] ].
Qed.

(** X4.  When [boto3.client] raises anything but [NoCredentialsError], no
    handler catches it: the exception leaves every route, before any remote
    call and without a notice. *)
Theorem construction_failure_escapes (r : route) (req : request) (w : world)
    (e : exn) :
  construction w = Some e ->
  is_no_credentials e = false ->
  handler r req w = (Raise e, w).
Proof.
  intros Hc He. destruct r; unfold_run; rewrite Hc; tidy_run; rewrite He;
    reflexivity.
Qed.

Lemma construction_failure_escapes_witness :
  construction partial_credentials
    = Some (OtherError "PartialCredentialsError"
              "Partial credentials found in env, missing: AWS_SECRET_ACCESS_KEY")
  /\ handler (RouteListObjects "b") {| form := ∅; files := ∅ |}
       partial_credentials
     = (Raise (OtherError "PartialCredentialsError"
                 "Partial credentials found in env, missing: AWS_SECRET_ACCESS_KEY"),
        partial_credentials).
Proof.
  split; [reflexivity|].
  exact (construction_failure_escapes (RouteListObjects "b")
           {| form := ∅; files := ∅ |} partial_credentials _ eq_refl eq_refl).
Defined.

(** X5.  A request that lacks the form field its handler indexes is refused with
    [BadRequestKeyError] naming the field, before any remote call and without
    a notice: [bucket_name] for [create_bucket], [dest_bucket] for
    [copy_file] and [move_file], [folder_name] for [create_folder]. *)
Theorem missing_form_field (bucket key : string) (req : request) (w : world) :
  construction w = None ->
  (form req !! "bucket_name" = None ->
   create_bucket req w = (Raise (BadRequestKeyError "bucket_name"), w))
  /\ (form req !! "dest_bucket" = None ->
      copy_file bucket key req w = (Raise (BadRequestKeyError "dest_bucket"), w)
      /\ move_file bucket key req w
         = (Raise (BadRequestKeyError "dest_bucket"), w))
  /\ (form req !! "folder_name" = None ->
      create_folder bucket req w
        = (Raise (BadRequestKeyError "folder_name"), w)).
Proof.
  intros Hc.
  split; [|split]; intros Hf; [|split|];
    unfold create_bucket, copy_file, move_file, create_folder;
    rewrite (bind_ret _ _ _ _ _ (ensure_s3_available _ Hc));
    apply bind_raise; apply form_item_none; exact Hf.
Qed.

Lemma missing_form_field_witness :
  construction two_buckets = None
  /\ move_file "b" "a/x.txt" {| form := ∅; files := ∅ |} two_buckets
     = (Raise (BadRequestKeyError "dest_bucket"), two_buckets).
Proof.
  split; [reflexivity|].
  destruct (missing_form_field "b" "a/x.txt" {| form := ∅; files := ∅ |}
              two_buckets eq_refl) as (_ & H & _).
  exact (proj2 (H eq_refl)).
Defined.

(** X6.  Where a request ends up once a client is at hand and the handler
    returns, whether the remote call succeeded or was caught failing: bucket
    creation and deletion lead home; upload, file deletion, copy, move and
    folder creation lead to the listing of the bucket in the path (for copy
    and move: the source bucket); [home] renders its page; [list_objects]
    renders the listing or leads home; [download_file] sends the file or
    leads to the listing. *)
Theorem redirect_targets (r : route) (req : request) (w : world)
    (resp : response) (w' : world) :
  construction w = None ->
  handler r req w = (Ret resp, w') ->
  match r with
  | RouteHome => exists bs, resp = RenderHome bs
  | RouteListObjects bucket =>
      resp = Redirect EpHome
      \/ exists contents bs, resp = RenderObjects bucket contents bs
  | RouteCreateBucket | RouteDeleteBucket _ => resp = Redirect EpHome
  | RouteDownloadFile bucket key =>
      resp = Redirect (EpListObjects bucket)
      \/ exists data, resp = SendFile data true (last_item (split "/" key))
  | RouteUploadFile bucket | RouteDeleteFile bucket _
  | RouteCopyFile bucket _ | RouteMoveFile bucket _
  | RouteCreateFolder bucket => resp = Redirect (EpListObjects bucket)
  end.
Proof.
  intros Hc. destruct r; unfold_run; rewrite Hc; split_run;
    intros H; inversion H; subst; eauto.
Qed.

Lemma redirect_targets_witness :
  construction (set_schedule [Some (access_denied "CopyObject")] two_buckets)
    = None
  /\ (copy_file "b" "a/x.txt" move_to_c
        (set_schedule [Some (access_denied "CopyObject")] two_buckets)).1
     = Ret (Redirect (EpListObjects "b")).
Proof.
  split; [reflexivity|].
  exact (f_equal Ret
           (redirect_targets (RouteCopyFile "b" "a/x.txt") move_to_c
              (set_schedule [Some (access_denied "CopyObject")] two_buckets)
              (Redirect (EpListObjects "b"))
              (World None [] ["b"; "c"] (objects two_buckets)
                 [Copy "b" "a/x.txt" "c" "a/x.txt"]
                 [" Copy failed: An error occurred (AccessDenied) when calling the CopyObject operation: Access Denied"])
              eq_refl eq_refl)).
Defined.

(** ** Reading *)

(** X7.  [home] shows the bucket list exactly when it has nothing to report: a
    page with the provider's buckets comes with no new notice, a page
    without a list comes with one (no credentials, or a caught failure of
    the listing). *)
Theorem home_outcomes (w : world) (resp : response) (w' : world) :
  home w = (Ret resp, w') ->
  (resp = RenderHome (Some (buckets w)) /\ flashes w' = flashes w
   /\ calls w' = calls w ++ [ListBuckets])
  \/ (resp = RenderHome None
      /\ exists msg, flashes w' = flashes w ++ [msg]).
Proof.
  unfold_run; split_run; intros H; inversion H; subst; tidy_run; eauto.
Qed.

Lemma home_outcomes_witness :
  home two_buckets
    = (Ret (RenderHome (Some ["b"; "c"])), set_calls [ListBuckets] two_buckets)
  /\ flashes (set_calls [ListBuckets] two_buckets) = [].
Proof.
  split; [reflexivity|].
  destruct (home_outcomes two_buckets (RenderHome (Some ["b"; "c"]))
              (set_calls [ListBuckets] two_buckets) eq_refl)
    as [(_ & H & _) | (H & _)]; [exact H | discriminate H].
Defined.

(** what [objects.get("Contents", [])] makes of the provider's answer: the
    entries of the bucket, none for a bucket without objects *)
Lemma list_objects_v2_contents s3 bucket w objs w1 :
  s3_list_objects_v2 s3 bucket w = (Ret objs, w1) ->
  default [] objs = bucket_contents bucket (objects w).
Proof.
  unfold s3_list_objects_v2, remote, bind, need_bucket.
  split_run; intros H; inversion H; subst; reflexivity.
Qed.

Lemma s3_list_buckets_ret s3 w bs w1 :
  s3_list_buckets s3 w = (Ret bs, w1) -> bs = buckets w.
Proof.
  unfold s3_list_buckets, remote.
  split_run; intros H; inversion H; subst; reflexivity.
Qed.

(** X8.  When both remote calls of [list_objects] succeed, the page shows the
    entries of the bucket, an empty list for a bucket without objects, and
    the provider's buckets; the calls are the listing of the objects, then
    the listing of the buckets; nothing is flashed. *)
Theorem list_objects_success (bucket : string) (w : world)
    (objs : option (list (string * nat))) (w1 : world) (bs : list string)
    (w2 : world) :
  construction w = None ->
  s3_list_objects_v2 S3Client bucket w = (Ret objs, w1) ->
  s3_list_buckets S3Client w1 = (Ret bs, w2) ->
  list_objects bucket w
    = (Ret (RenderObjects bucket (bucket_contents bucket (objects w))
              (buckets w)), w2)
  /\ calls w2 = calls w ++ [ListObjectsV2 bucket; ListBuckets]
  /\ flashes w2 = flashes w.
Proof.
  intros Hc H1 H2.
  destruct (s3_list_objects_v2_store _ _ _ _ _ H1) as [(Hb1 & _ & Hf1) Hc1].
  destruct (s3_list_buckets_store _ _ _ _ H2) as [(_ & _ & Hf2) Hc2].
  split; [|split].
  - unfold list_objects.
    rewrite (bind_ret _ _ _ _ _ (ensure_s3_available _ Hc)).
    apply try_except_ret.
    rewrite (bind_ret _ _ _ _ _ H1). rewrite (bind_ret _ _ _ _ _ H2).
    rewrite (list_objects_v2_contents _ _ _ _ _ H1).
    rewrite (s3_list_buckets_ret _ _ _ _ H2), Hb1. reflexivity.
  - rewrite Hc2, Hc1, <- app_assoc. reflexivity.
  - congruence.
Qed.

Lemma list_objects_success_witness :
  construction two_buckets = None
  /\ list_objects "c" two_buckets
     = (Ret (RenderObjects "c" [] ["b"; "c"]),
        set_calls [ListObjectsV2 "c"; ListBuckets] two_buckets).
Proof.
  split; [reflexivity|].
  exact (proj1 (list_objects_success "c" two_buckets None
                  (set_calls [ListObjectsV2 "c"] two_buckets) ["b"; "c"]
                  (set_calls [ListObjectsV2 "c"; ListBuckets] two_buckets)
                  eq_refl eq_refl eq_refl)).
Defined.

(** X9.  [download_file] sends nothing it did not read: a file response carries
    the content stored under [(bucket, key)], as an attachment named after
    the last segment of the key, and comes without a notice. *)
Theorem download_file_sends_stored (bucket key : string) (w : world)
    (data : bytes) (attach : bool) (name : string) (w' : world) :
  download_file bucket key w = (Ret (SendFile data attach name), w') ->
  objects w !! (bucket, key) = Some data
  /\ attach = true
  /\ name = last_item (split "/" key)
  /\ flashes w' = flashes w
  /\ calls w' = calls w ++ [DownloadFileobj bucket key].
Proof.
  unfold_run; split_run; intros H; inversion H; subst; tidy_run; auto.
Qed.

Lemma download_file_sends_stored_witness :
  download_file "b" "a/b/report.csv" with_report
    = (Ret (SendFile ["1"; ","; "2"]%char true "report.csv"),
       set_calls [DownloadFileobj "b" "a/b/report.csv"] with_report)
  /\ objects with_report !! ("b", "a/b/report.csv")
     = Some ["1"; ","; "2"]%char.
Proof.
  split; [reflexivity|].
  exact (proj1 (download_file_sends_stored "b" "a/b/report.csv" with_report
                  ["1"; ","; "2"]%char true "report.csv"
                  (set_calls [DownloadFileobj "b" "a/b/report.csv"] with_report)
                  eq_refl)).
Defined.

(** ** Writing *)

(** X10.  Once the provider has carried out the delete, [delete_file] has removed
    the key and nothing else, and says so. *)
Theorem delete_file_removes (bucket key : string) (w w1 : world) :
  construction w = None ->
  s3_delete_object S3Client bucket key w = (Ret tt, w1) ->
  let r := delete_file bucket key w in
  r.1 = Ret (Redirect (EpListObjects bucket))
  /\ objects r.2 !! (bucket, key) = None
  /\ (forall k, k <> (bucket, key) -> objects r.2 !! k = objects w !! k)
  /\ buckets r.2 = buckets w
  /\ calls r.2 = calls w ++ [DeleteObject bucket key]
  /\ flashes r.2
     = flashes w ++ [" File '" +:+ key +:+ "' deleted successfully"].
Proof.
  intros Hc Hdel r.
  destruct (s3_delete_object_ret _ _ _ _ _ Hdel) as (Ho & Hb & Hf & Hcalls).
  assert (Hr : r = (Ret (Redirect (EpListObjects bucket)),
                    set_flashes
                      (flashes w1 ++ [" File '" +:+ key
                                      +:+ "' deleted successfully"]) w1)).
  { subst r. unfold delete_file.
    rewrite (bind_ret _ _ _ _ _ (ensure_s3_available _ Hc)).
    rewrite guarded_call, Hdel. reflexivity. }
  rewrite Hr. simpl. rewrite Ho, Hf.
  split; [reflexivity|]. split; [apply lookup_delete_eq|].
  split; [intros k Hk; apply lookup_delete_ne; congruence|]. auto.
Qed.

Lemma delete_file_removes_witness :
  construction two_buckets = None
  /\ objects (delete_file "b" "a/x.txt" two_buckets).2 !! ("b", "a/x.txt")
     = None.
Proof.
  split; [reflexivity|].
  destruct (delete_file_removes "b" "a/x.txt" two_buckets
              (World None [] ["b"; "c"] (delete ("b", "a/x.txt") (objects two_buckets))
                 [DeleteObject "b" "a/x.txt"] [])
              eq_refl eq_refl) as (_ & H & _).
  exact H.
Defined.

(** X11.  Once the provider has carried out the copy and the delete of a move,
    the source key is gone; the destination holds what the source held,
    unless it is the source key itself, in which case the object is at no
    key any more; every other key holds what it held. *)
Theorem move_file_success (bucket key : string) (req : request) (w : world)
    (dest_bucket : string) (w1 w2 : world) :
  construction w = None ->
  form req !! "dest_bucket" = Some dest_bucket ->
  let dest_key := match form req !! "dest_key" with
                  | Some dk => dk
                  | None => key
                  end in
  s3_copy S3Client bucket key dest_bucket dest_key w = (Ret tt, w1) ->
  s3_delete_object S3Client bucket key w1 = (Ret tt, w2) ->
  let r := move_file bucket key req w in
  r.1 = Ret (Redirect (EpListObjects bucket))
  /\ flashes r.2
     = flashes w ++ [" File '" +:+ key +:+ "' moved to " +:+ dest_bucket
                     +:+ "/" +:+ dest_key]
  /\ exists v,
       objects w !! (bucket, key) = Some v
       /\ objects r.2 !! (bucket, key) = None
       /\ ((dest_bucket, dest_key) <> (bucket, key) ->
           objects r.2 !! (dest_bucket, dest_key) = Some v)
       /\ (forall k, k <> (bucket, key) -> k <> (dest_bucket, dest_key) ->
                     objects r.2 !! k = objects w !! k).
Proof.
  intros Hc Hd dest_key Hcopy Hdel r.
  destruct (s3_copy_ret _ _ _ _ _ _ _ Hcopy) as ((v & Hv & Ho1) & _ & Hf1 & _).
  destruct (s3_delete_object_ret _ _ _ _ _ Hdel) as (Ho2 & _ & Hf2 & _).
  assert (Hr : r = (Ret (Redirect (EpListObjects bucket)),
                    set_flashes
                      (flashes w2 ++ [" File '" +:+ key +:+ "' moved to "
                                      +:+ dest_bucket +:+ "/" +:+ dest_key])
                      w2)).
  { subst r. unfold move_file.
    rewrite (bind_ret _ _ _ _ _ (ensure_s3_available _ Hc)).
    rewrite (bind_ret _ _ _ _ _ (form_item_some _ _ _ _ Hd)).
    change (form_get req "dest_key" key) with dest_key.
    erewrite bind_ret; [reflexivity|].
    apply try_except_ret.
    rewrite (bind_ret _ _ _ _ _ Hcopy).
    rewrite (bind_ret _ _ _ _ _ Hdel). reflexivity. }
  rewrite Hr. simpl. rewrite Hf2, Hf1, Ho2, Ho1.
  split; [reflexivity|]. split; [reflexivity|].
  exists v. split; [exact Hv|]. split; [apply lookup_delete_eq|]. split.
  - intros Hne. rewrite lookup_delete_ne by congruence. apply lookup_insert_eq.
  - intros k Hk1 Hk2. rewrite lookup_delete_ne by congruence.
    apply lookup_insert_ne. congruence.
Qed.

Lemma move_file_success_witness :
  construction two_buckets = None
  /\ objects (move_file "b" "a/x.txt" copy_to_c_renamed two_buckets).2
       !! ("b", "a/x.txt") = None
  /\ objects (move_file "b" "a/x.txt" copy_to_c_renamed two_buckets).2
       !! ("c", "y.txt") = Some ["h"; "i"]%char.
Proof.
  split; [reflexivity|].
  destruct (move_file_success "b" "a/x.txt" copy_to_c_renamed two_buckets "c"
              (World None [] ["b"; "c"]
                 (<[("c", "y.txt") := ["h"; "i"]%char]> (objects two_buckets))
                 [Copy "b" "a/x.txt" "c" "y.txt"] [])
              (World None [] ["b"; "c"]
                 (delete ("b", "a/x.txt")
                    (<[("c", "y.txt") := ["h"; "i"]%char]> (objects two_buckets)))
                 [Copy "b" "a/x.txt" "c" "y.txt"; DeleteObject "b" "a/x.txt"] [])
              eq_refl eq_refl eq_refl eq_refl)
    as (_ & _ & v & Hv & Hsrc & Hdst & _).
  split; [exact Hsrc|].
  transitivity (Some v); [apply Hdst; discriminate|].
  rewrite <- Hv. reflexivity.
Defined.

(** X12.  The key of a folder always ends in a slash, and it is the key of the
    folder named by itself: normalising twice changes nothing. *)
Theorem folder_key_idempotent (folder_name : string) :
  endswith (folder_key folder_name) "/" = true
  /\ folder_key (folder_key folder_name) = folder_key folder_name.
Proof.
  pose proof (folder_key_endswith folder_name) as H.
  split; [exact H|].
  unfold folder_key at 1. rewrite H. reflexivity.
Qed.

(** ** The urlencode filter, continued *)

Lemma chars_app (s t : string) :
  String.list_ascii_of_string (s +:+ t)
    = String.list_ascii_of_string s ++ String.list_ascii_of_string t.
Proof.
  induction s as [|c s IH]; [reflexivity|].
  change (String c s +:+ t) with (String c (s +:+ t)).
  simpl. rewrite IH. reflexivity.
Qed.

Lemma percent_chars (c : ascii) (safe : ascii -> bool) :
  Forall (fun d => always_safe d || Ascii.eqb d "%" || safe d = true)
         (String.list_ascii_of_string (percent c)).
Proof. each_byte c; repeat (constructor; [reflexivity|]); constructor. Qed.

Lemma quote_chars (s : string) (safe : ascii -> bool) :
  Forall (fun d => always_safe d || Ascii.eqb d "%" || safe d = true)
         (String.list_ascii_of_string (quote s safe)).
Proof.
  induction s as [|c s IH]; [constructor|].
  cbn [quote]. rewrite chars_app. apply Forall_app. split; [|exact IH].
  destruct (always_safe c || safe c) eqn:Hs.
  - repeat constructor.
    apply orb_true_iff in Hs. destruct Hs as [-> | ->];
      [reflexivity | apply orb_true_r].
  - apply percent_chars.
Qed.

Lemma replace_chars (old new : ascii) (s : string) :
  String.list_ascii_of_string (replace old new s)
    = map (fun c => if Ascii.eqb c old then new else c)
          (String.list_ascii_of_string s).
Proof.
  induction s as [|c s IH]; [reflexivity|]. simpl. rewrite IH. reflexivity.
Qed.

(** X13.  What the filter returns is made of letters, digits, [_.-~], percent
    signs and plus signs only: no slash, question mark, hash, ampersand or
    space of the key is left in it. *)
Theorem urlencode_filter_alphabet (key : string) :
  Forall (fun c => always_safe c || Ascii.eqb c "%" || Ascii.eqb c "+" = true)
         (String.list_ascii_of_string (urlencode_filter key)).
Proof.
  unfold urlencode_filter, quote_plus.
  destruct (negb (contains " " key)).
  - eapply Forall_impl; [apply (quote_chars key (fun _ => false))|].
    intros c Hc. simpl in Hc. rewrite orb_false_r in Hc. rewrite Hc. reflexivity.
  - rewrite replace_chars. apply Forall_map.
    eapply Forall_impl; [apply (quote_chars key (fun c => Ascii.eqb c " "))|].
    intros c Hc. simpl in *. destruct (Ascii.eqb c " ") eqn:Hsp.
    + reflexivity.
    + rewrite orb_false_r in Hc. rewrite Hc. reflexivity.
Qed.

(** X14.  Read as a form field or a query string, what the filter returns
    is the key again; so two keys never share an encoding. *)
Theorem urlencode_filter_form_decoding (key : string) :
  unquote_plus (urlencode_filter key) = key
  /\ (forall key', urlencode_filter key' = urlencode_filter key -> key' = key).
Proof.
  split; [apply urlencode_filter_form_round_trip|].
  intros key' H.
  rewrite <- (urlencode_filter_form_round_trip key'), H.
  apply urlencode_filter_form_round_trip.
Qed.

(** X15.  Read as a path segment, what the filter returns is the key with
    each space turned into a plus sign: the keys that come back unchanged
    are exactly the keys without a space. *)
Theorem urlencode_filter_path_decoding (key : string) :
  unquote (urlencode_filter key) = replace " " "+" key
  /\ (unquote (urlencode_filter key) = key <-> contains " " key = false).
Proof.
  split; [apply urlencode_filter_as_path|].
  rewrite urlencode_filter_as_path. split.
  - intros H. apply (contains_replace_absent " " "+"); [exact H | discriminate].
  - apply replace_absent.
Qed.
